(** * ir-access / prefix-fetcher: the fetch package, embedded and verified

    A shallow embedding of the Go package [fetch] (api.go, asn_delegated.go
    and the BGP table file) together with the parts of [net/netip],
    [math/big], [strings], [strconv], [slices], [sort], [io] and [bufio]
    it calls.

    Conventions.
    - Go's [int] is a 64-bit signed integer: it is a [Z], and wrap-around is
      written out ([wrap64]) wherever the source can overflow.
    - A Go [string] is a sequence of bytes: [list ascii].
    - A run-time panic is [None].
    - A Go map used as a set is a [gset]. Go ranges over a map in an
      unspecified order: [convertToIPv4BlocksRanging] takes that order as a
      parameter, and [convertToIPv4Blocks] is the function for the order of
      [elements]. *)

From Stdlib Require Import ZArith Lia Ascii String List Sorted Permutation DecimalString.
From stdpp Require Import base tactics option list numbers countable gmap sets sorting.

Local Open Scope string_scope.
Local Open Scope list_scope.
Local Open Scope Z_scope.

(** ** Machine integers *)

Definition wrap64 (z : Z) : Z := (z + 2 ^ 63) mod 2 ^ 64 - 2 ^ 63.

(** [cmp.Compare] on integers. *)
Definition cmpCompare (x y : Z) : Z :=
  if x <? y then -1 else if y <? x then 1 else 0.

(** ** net/netip *)

Module netip.

(** [netip.Addr] as a prefix stores it: the zero value, an IPv4 address
    (32-bit value) or an IPv6 address (the two 64-bit halves [hi], [lo]).
    A prefix never carries a zone: [PrefixFrom] strips it and
    [ParsePrefix] rejects it. *)
Inductive Addr : Type :=
| AddrZero
| Addr4 (v : Z)
| Addr6 (hi lo : Z).

Definition BitLen (ip : Addr) : Z :=
  match ip with
  | AddrZero => 0
  | Addr4 _ => 32
  | Addr6 _ _ => 128
  end.

Definition Is4 (ip : Addr) : bool :=
  match ip with Addr4 _ => true | _ => false end.

Definition Is6 (ip : Addr) : bool :=
  match ip with Addr6 _ _ => true | _ => false end.

Definition isZero (ip : Addr) : bool :=
  match ip with AddrZero => true | _ => false end.

(** The 128-bit representation [addr uint128{hi, lo}]: an IPv4 address is
    stored as the IPv4-mapped IPv6 address ::ffff:a.b.c.d. *)
Definition addr_hi (ip : Addr) : Z :=
  match ip with Addr6 hi _ => hi | _ => 0 end.

Definition addr_lo (ip : Addr) : Z :=
  match ip with
  | AddrZero => 0
  | Addr4 v => 0xffff00000000 + v
  | Addr6 _ lo => lo
  end.

(** [Addr.Compare]: family first, then [hi], then [lo] (zones are always
    empty here). *)
Definition Compare (ip ip2 : Addr) : Z :=
  let f1 := BitLen ip in
  let f2 := BitLen ip2 in
  if f1 <? f2 then -1
  else if f2 <? f1 then 1
  else
    let hi1 := addr_hi ip in
    let hi2 := addr_hi ip2 in
    if hi1 <? hi2 then -1
    else if hi2 <? hi1 then 1
    else
      let lo1 := addr_lo ip in
      let lo2 := addr_lo ip2 in
      if lo1 <? lo2 then -1
      else if lo2 <? lo1 then 1
      else 0.

(** Big-endian bytes of the low [n] bytes of [w]. *)
Definition bePut (n : nat) (w : Z) : list Z :=
  map (fun i => Z.land (Z.shiftr w (8 * Z.of_nat i)) 0xff) (rev (seq 0 n)).

(** Big-endian value of a byte sequence. *)
Definition beUint (bs : list Z) : Z :=
  fold_left (fun acc b => Z.lor (Z.shiftl acc 8) b) bs 0.

(** [Addr.Is4In6]. *)
Definition Is4In6 (ip : Addr) : bool :=
  Is6 ip && (addr_hi ip =? 0) && (Z.shiftr (addr_lo ip) 32 =? 0xffff).

(** [Addr.As4]; it panics on the zero value and on a plain IPv6 address. *)
Definition As4 (ip : Addr) : option (list Z) :=
  match ip with
  | Addr4 v => Some (bePut 4 v)
  | _ => if Is4In6 ip then Some (bePut 4 (Z.land (addr_lo ip) 0xffffffff))
         else None
  end.

(** [Addr.AsSlice]: nil, 4 bytes or 16 bytes. *)
Definition AsSlice (ip : Addr) : list Z :=
  match ip with
  | AddrZero => []
  | Addr4 v => bePut 4 v
  | Addr6 hi lo => bePut 8 hi ++ bePut 8 lo
  end.

Definition AddrFrom4 (bs : list Z) : Addr := Addr4 (beUint bs).

Definition AddrFrom16 (bs : list Z) : Addr :=
  Addr6 (beUint (take 8 bs)) (beUint (drop 8 bs)).

(** [AddrFromSlice]: a 4-byte or 16-byte slice, anything else fails. *)
Definition AddrFromSlice (bs : list Z) : Addr * bool :=
  if (length bs =? 4)%nat then (AddrFrom4 bs, true)
  else if (length bs =? 16)%nat then (AddrFrom16 bs, true)
  else (AddrZero, false).

(** [netip.Prefix]: an address and a prefix length; [Bits] is [-1] for an
    invalid prefix. The address is kept as given: host bits are not
    cleared (that is [Prefix.Masked], which this package never calls). *)
Record Prefix : Type := mkPrefix { Addr_ : Addr; Bits : Z }.

Definition PrefixFrom (ip : Addr) (bits : Z) : Prefix :=
  if negb (isZero ip) && (0 <=? bits) && (bits <=? BitLen ip)
  then mkPrefix ip bits
  else mkPrefix ip (-1).

Definition IsValid (p : Prefix) : bool := 0 <=? Bits p.

(** [Prefix.Contains] on IPv4 addresses: the first [Bits] bits agree. *)
Definition Contains4 (p : Prefix) (x : Z) : bool :=
  match Addr_ p with
  | Addr4 v => IsValid p && (Z.shiftr (Z.lxor x v) (32 - Bits p) =? 0)
  | _ => false
  end.

(** [Prefix.Masked] on IPv4: the network (base) address of the prefix. *)
Definition Masked (p : Prefix) : Prefix :=
  match Addr_ p with
  | Addr4 v =>
      if IsValid p
      then mkPrefix (Addr4 (Z.shiftl (Z.shiftr v (32 - Bits p)) (32 - Bits p))) (Bits p)
      else mkPrefix AddrZero (-1)
  | ip => mkPrefix ip (Bits p)
  end.

#[global] Instance Addr_eq_dec : EqDecision Addr.
Proof. solve_decision. Defined.

#[global] Instance Prefix_eq_dec : EqDecision Prefix.
Proof. solve_decision. Defined.

Definition Addr_enc (ip : Addr) : unit + (Z + Z * Z) :=
  match ip with
  | AddrZero => inl tt
  | Addr4 v => inr (inl v)
  | Addr6 hi lo => inr (inr (hi, lo))
  end.

Definition Addr_dec (x : unit + (Z + Z * Z)) : Addr :=
  match x with
  | inl _ => AddrZero
  | inr (inl v) => Addr4 v
  | inr (inr (hi, lo)) => Addr6 hi lo
  end.

#[global] Instance Addr_countable : Countable Addr.
Proof. by apply (inj_countable' Addr_enc Addr_dec); intros []. Defined.

#[global] Instance Prefix_countable : Countable Prefix.
Proof.
  by apply (inj_countable' (fun p => (Addr_ p, Bits p))
                           (fun x => mkPrefix x.1 x.2)); intros [].
Defined.

End netip.

(** ** The BGP table file: the comparator *)

(** [prefixCompare]: comparison for deterministic prefix ordering. *)
Definition prefixCompare (a b : netip.Prefix) : Z :=
  let c := cmpCompare (netip.BitLen (netip.Addr_ a)) (netip.BitLen (netip.Addr_ b)) in
  if negb (c =? 0) then c
  else
    let c := cmpCompare (netip.Bits a) (netip.Bits b) in
    if negb (c =? 0) then c
    else netip.Compare (netip.Addr_ a) (netip.Addr_ b).

(** ** slices.SortFunc and sort.Ints

    Go sorts in place with an unstable pattern-defeating quicksort. Both
    comparators used by this package are total orders under which only
    equal values compare equal, so the sorted result does not depend on the
    algorithm ([SortFunc_unique] below); a merge sort stands for it. *)

Definition cmpLe {A : Type} (cmp : A -> A -> Z) : relation A :=
  fun a b => cmp a b <= 0.

#[global] Instance cmpLe_dec {A : Type} (cmp : A -> A -> Z) (a b : A) :
  Decision (cmpLe cmp a b).
Proof. unfold cmpLe. apply _. Defined.

Definition SortFunc {A : Type} (cmp : A -> A -> Z) (l : list A) : list A :=
  merge_sort (cmpLe cmp) l.

Definition sortInts (l : list Z) : list Z := merge_sort Z.le l.

(** ** api.go: /24 normalisation *)

(** [big.Int.SetBytes]: the big-endian unsigned value of the slice. *)
Definition SetBytes (bs : list Z) : Z := netip.beUint bs.

(** [big.Int.FillBytes] into a buffer of [n] bytes: it panics when the
    absolute value does not fit. *)
Definition FillBytes (x : Z) (n : nat) : option (list Z) :=
  if Z.abs x <? 2 ^ (8 * Z.of_nat n) then Some (netip.bePut n (Z.abs x)) else None.

Definition ipToInt (ip : netip.Addr) : Z := SetBytes (netip.AsSlice ip).

Definition intToIP (ipInt : Z) : option netip.Addr :=
  bytes ← FillBytes ipInt 4;
  Some (fst (netip.AddrFromSlice bytes)).

(** [1 << s] on a 64-bit [int] (a shift count of 64 or more gives 0). *)
Definition shl1 (s : Z) : Z :=
  if s <? 64 then wrap64 (Z.shiftl 1 s) else 0.

(** The loop of [splitToBlocks]: [n] iterations left, [baseInt] is the
    running address, advanced by [increment] after each block. *)
Fixpoint splitLoop (n : nat) (baseInt increment : Z) : option (list netip.Prefix) :=
  match n with
  | O => Some []
  | S n' =>
      ip ← intToIP baseInt;
      rest ← splitLoop n' (baseInt + increment) increment;
      Some (netip.PrefixFrom ip 24 :: rest)
  end.

(** [splitToBlocks]: breaks down larger prefixes into /24 chunks. *)
Definition splitToBlocks (prefix : netip.Prefix) : option (list netip.Prefix) :=
  if 24 <=? netip.Bits prefix then
    (* Already /24 or smaller - just align to /24 boundary *)
    let addr := netip.Addr_ prefix in
    bytes ← netip.As4 addr;
    let bytes := <[3%nat := 0]> bytes in
    let baseAddr := fst (netip.AddrFromSlice bytes) in
    let block := netip.PrefixFrom baseAddr 24 in
    Some [block]
  else
    (* Split larger blocks (e.g., /16, /20) into multiple /24s *)
    let blockCount := shl1 (24 - netip.Bits prefix) in
    if blockCount <? 0 then None
    else
      let baseInt := ipToInt (netip.Addr_ prefix) in
      let increment := 256 in
      splitLoop (Z.to_nat blockCount) baseInt increment.

(** The first loop of [convertToIPv4Blocks]: the set of blocks so far. *)
Fixpoint collectBlocks (prefixes : list netip.Prefix) (blockSet : gset netip.Prefix)
  : option (gset netip.Prefix) :=
  match prefixes with
  | [] => Some blockSet
  | prefix :: rest =>
      if negb (netip.Is4 (netip.Addr_ prefix)) then collectBlocks rest blockSet
      else
        blocks ← splitToBlocks prefix;
        collectBlocks rest (list_to_set blocks ∪ blockSet)
  end.

(** [convertToIPv4Blocks]: deduplicates and normalizes IPv4 prefixes into
    /24 blocks. *)
Definition convertToIPv4Blocks (prefixes : list netip.Prefix) : option (list netip.Prefix) :=
  if (length prefixes =? 0)%nat then Some []
  else
    blockSet ← collectBlocks prefixes ∅;
    let result := elements blockSet in
    Some (SortFunc prefixCompare result).

(** [convertToIPv4Blocks] with the order in which [range] visits the keys
    of the block map made explicit: Go leaves that order unspecified, so
    [rangeOrder] stands for any arrangement of the keys. *)
Definition convertToIPv4BlocksRanging
  (rangeOrder : list netip.Prefix -> list netip.Prefix)
  (prefixes : list netip.Prefix) : option (list netip.Prefix) :=
  if (length prefixes =? 0)%nat then Some []
  else
    blockSet ← collectBlocks prefixes ∅;
    let result := rangeOrder (elements blockSet) in
    Some (SortFunc prefixCompare result).

(** ** The BGP table file: entries, filter *)

(** BGP route entry with its announcing ASN. *)
Record Prefix : Type := mkBGP { CIDR : netip.Prefix; ASN : Z }.

Definition maxRetries : Z := 4.
Definition second : Z := 1000000000.
Definition retryDelay : Z := 1 * second.

(** [filterByASN]: extracts prefixes announced by target ASNs and sorts by
    IP family. *)
Definition filterByASN (prefixes : list Prefix) (asns : list Z)
  : list netip.Prefix * list netip.Prefix :=
  let asnSet : gmap Z bool :=
    fold_left (fun m asn => <[asn := true]> m) asns ∅ in
  let '(v4, v6) :=
    fold_left
      (fun '(v4, v6) prefix =>
         if negb (default false (asnSet !! ASN prefix)) then (v4, v6)
         else if netip.Is4 (netip.Addr_ (CIDR prefix)) then (v4 ++ [CIDR prefix], v6)
         else if netip.Is6 (netip.Addr_ (CIDR prefix)) then (v4, v6 ++ [CIDR prefix])
         else (v4, v6))
      prefixes ([], []) in
  (SortFunc prefixCompare v4, SortFunc prefixCompare v6).

(** ** Errors and effects *)

(** A Go [error]: its message and, for an error made with [%w], the error
    it wraps. *)
Inductive error : Type :=
| errNew (msg : list ascii)
| errWrap (msg : list ascii) (inner : error).

Definition Error (e : error) : list ascii :=
  match e with errNew msg | errWrap msg _ => msg end.

Definition Unwrap (e : error) : option error :=
  match e with errNew _ => None | errWrap _ inner => Some inner end.

Definition str (s : string) : list ascii := list_ascii_of_string s.

(** [%d]. *)
Definition fmtInt (n : Z) : list ascii :=
  str (NilZero.string_of_int (Z.to_int n)).

(** [fmt.Errorf(text + "%w", err)]. *)
Definition Errorf_w (text : list ascii) (err : error) : error :=
  errWrap (text ++ Error err) err.

(** [fmt.Errorf] without [%w]. *)
Definition Errorf (text : list ascii) : error := errNew text.

(** What the BGP fetch does to the outside world: a download of the table,
    or a [time.Sleep] of [d] nanoseconds. *)
Inductive event : Type :=
| EvFetch
| EvSleep (d : Z).

(** The world: how many downloads were made, and the events so far. *)
Record World : Type := mkWorld { downloads : nat; trace : list event }.

Definition M (A : Type) : Type := World -> A * World.

Definition ret {A : Type} (a : A) : M A := fun w => (a, w).

Definition bind {A B : Type} (m : M A) (k : A -> M B) : M B :=
  fun w => let '(a, w') := m w in k a w'.

Notation "'let*' x ':=' m 'in' k" := (bind m (fun x => k))
  (at level 10, x name, m at level 100, k at level 200).

Definition Sleep (d : Z) : M unit :=
  fun w => (tt, mkWorld (downloads w) (trace w ++ [EvSleep d])).

(** Container for country-specific prefix results. *)
Record PrefixSet : Type := mkPrefixSet {
  IPv4 : list netip.Prefix;
  IPv6 : list netip.Prefix
}.

Section Network.

(** The network: the outcome of the [n]-th download of the BGP table
    ([fetchPrefixesSimple] performs one HTTP request and decodes the
    body). *)
Variable bgpTools : nat -> error + list Prefix.

Definition fetchPrefixesSimple : M (error + list Prefix) :=
  fun w => (bgpTools (downloads w),
            mkWorld (S (downloads w)) (trace w ++ [EvFetch])).

(** [fmt.Errorf("all %d attempts failed: %w", maxRetries, lastErr)]. *)
Definition exhausted (lastErr : option error) : error :=
  let text := str "all " ++ fmtInt maxRetries ++ str " attempts failed: " in
  match lastErr with
  | Some err => Errorf_w text err
  | None => Errorf (text ++ str "%!w(<nil>)")
  end.

(** The body of [for attempt := 1; attempt <= maxRetries; attempt++],
    over the attempts that are left. *)
Fixpoint retryLoop (attempts : list Z) (lastErr : option error)
  : M (error + list Prefix) :=
  match attempts with
  | [] => ret (inl (exhausted lastErr))
  | attempt :: rest =>
      let* r := fetchPrefixesSimple in
      match r with
      | inr prefixes => ret (inr prefixes)
      | inl err =>
          let* _ := (if attempt <? maxRetries
                     then Sleep (wrap64 (attempt * retryDelay))
                     else ret tt) in
          retryLoop rest (Some err)
      end
  end.

(** [fetchWithRetrySimple]: downloads the full BGP table, retrying on
    failures. *)
Definition fetchWithRetrySimple : M (error + list Prefix) :=
  retryLoop (seqZ 1 maxRetries) None.

(** [GetPrefixesForASNs]: downloads BGP prefixes and converts IPv4 to /24
    blocks. [None] is a panic of the normalizer. *)
Definition GetPrefixesForASNs (asns : list Z) : M (option (error + PrefixSet)) :=
  if (length asns =? 0)%nat then ret (Some (inr (mkPrefixSet [] [])))
  else
    let* r := fetchWithRetrySimple in
    match r with
    | inl err => ret (Some (inl (Errorf_w (str "failed to fetch BGP data: ") err)))
    | inr bgpPrefixes =>
        let '(ipv4, ipv6) := filterByASN bgpPrefixes asns in
        match convertToIPv4Blocks ipv4 with
        | None => ret None
        | Some ipv4Blocks => ret (Some (inr (mkPrefixSet ipv4Blocks ipv6)))
        end
    end.

End Network.

(** ** strings and strconv *)

(** The UTF-8 encodings of the runes for which [unicode.IsSpace] holds:
    tab, LF, VT, FF, CR, space, U+0085, U+00A0, U+1680, U+2000..U+200A,
    U+2028, U+2029, U+202F, U+205F and U+3000. *)
Definition spaceRunes : list (list ascii) :=
  map (map ascii_of_N)
      ([[9]; [10]; [11]; [12]; [13]; [32];
        [0xC2; 0x85]; [0xC2; 0xA0]; [0xE1; 0x9A; 0x80]]
       ++ map (fun k => [0xE2; 0x80; k])
              [0x80; 0x81; 0x82; 0x83; 0x84; 0x85; 0x86; 0x87; 0x88; 0x89; 0x8A]
       ++ [[0xE2; 0x80; 0xA8]; [0xE2; 0x80; 0xA9]; [0xE2; 0x80; 0xAF];
           [0xE2; 0x81; 0x9F]; [0xE3; 0x80; 0x80]])%N.

(** Strips, at most [fuel] times, a leading element of [runes]. *)
Fixpoint trimRunes (runes : list (list ascii)) (fuel : nat) (s : list ascii)
  : list ascii :=
  match fuel with
  | O => s
  | S fuel' =>
      match List.find (fun e => bool_decide (e `prefix_of` s)) runes with
      | Some e => trimRunes runes fuel' (drop (length e) s)
      | None => s
      end
  end.

Definition TrimLeftSpace (s : list ascii) : list ascii :=
  trimRunes spaceRunes (length s) s.

Definition TrimRightSpace (s : list ascii) : list ascii :=
  reverse (trimRunes (map reverse spaceRunes) (length s) (reverse s)).

(** [strings.TrimSpace]: leading and trailing white space removed, as
    defined by Unicode. *)
Definition TrimSpace (s : list ascii) : list ascii :=
  TrimRightSpace (TrimLeftSpace s).

(** [strings.HasPrefix]. *)
Definition HasPrefix (s pre : list ascii) : bool :=
  bool_decide (pre `prefix_of` s).

(** [strings.Contains]: [substr] occurs at some position of [s]. *)
Fixpoint Contains (s substr : list ascii) : bool :=
  HasPrefix s substr
  || match s with
     | [] => false
     | _ :: s' => Contains s' substr
     end.

(** [strings.Split(s, sep)] for a one-byte separator. *)
Fixpoint Split (s : list ascii) (sep : ascii) : list (list ascii) :=
  match s with
  | [] => [[]]
  | c :: s' =>
      if bool_decide (c = sep) then [] :: Split s' sep
      else match Split s' sep with
           | field :: fields => (c :: field) :: fields
           | [] => [[c]]
           end
  end.

Definition digitVal (ch : ascii) : option Z :=
  let d := Z.of_N (N_of_ascii ch) - 48 in
  if (0 <=? d) && (d <=? 9) then Some d else None.

Fixpoint parseDigits (ds : list ascii) (n : Z) : option Z :=
  match ds with
  | [] => Some n
  | ch :: rest => d ← digitVal ch; parseDigits rest (n * 10 + d)
  end.

(** [strconv.Atoi]: an optional sign and at least one decimal digit, the
    value within the 64-bit range; [None] is a syntax or range error. *)
Definition Atoi (s : list ascii) : option Z :=
  match s with
  | [] => None
  | c :: r =>
      let neg := bool_decide (c = "-"%char) in
      let ds := if neg || bool_decide (c = "+"%char) then r else s in
      match ds with
      | [] => None
      | _ =>
          n ← parseDigits ds 0;
          let v := if neg then - n else n in
          if (- 2 ^ 63 <=? v) && (v <? 2 ^ 63) then Some v else None
      end
  end.

(** ** asn_delegated.go *)

(** RIR represents a Regional Internet Registry. *)
Record RIR : Type := mkRIR { Name : list ascii; URL : list ascii }.

Definition RIPE_NCC : RIR :=
  mkRIR (str "RIPE NCC") (str "https://ftp.ripe.net/ripe/stats/delegated-ripencc-latest").

Definition APNIC : RIR :=
  mkRIR (str "APNIC") (str "https://ftp.apnic.net/stats/apnic/delegated-apnic-latest").

(** Country to RIR mapping based on geographical coverage. *)
Definition CountryToRIR : gmap (list ascii) RIR :=
  <[str "IR" := RIPE_NCC]> (<[str "CN" := APNIC]> ∅).

(** DelegatedRecord represents a single record from RIR delegated file. *)
Record DelegatedRecord : Type := mkRecord {
  Registry : list ascii;
  CC : list ascii;
  Type_ : list ascii;
  Start : list ascii;
  Value : list ascii;
  Date : list ascii;
  Status : list ascii
}.

(** ** io.Reader and bufio.Scanner *)

(** An [io.Reader]: the bytes the stream delivers and how it ends, at the
    end of the data ([None], io.EOF) or with a read error after them.
    [endsWithData] tells whether the last [Read] hands over the final bytes
    together with that end, which [io.Reader] permits, or the end comes
    with a [Read] of its own. Readers that return bad counts or make no
    progress are left out. *)
Record Reader : Type := mkReader {
  content : list ascii;
  readErr : option error;
  endsWithData : bool
}.

(** [bufio.MaxScanTokenSize]: the largest size of the scanner's buffer. *)
Definition MaxScanTokenSize : Z := 64 * 1024.

(** [bufio.ErrTooLong]. *)
Definition ErrTooLong : error := errNew (str "bufio.Scanner: token too long").

(** The line feed that ends a line. *)
Definition newline : ascii := "010"%char.

(** [dropCR]: drops a terminal \r from the data. *)
Definition dropCR (data : list ascii) : list ascii :=
  match reverse data with
  | c :: rest => if bool_decide (c = "013"%char) then reverse rest else data
  | [] => data
  end.

(** [Scanner.Scan] with the split function [ScanLines], repeated until it
    returns false. [data] is what is left of the stream and [line] holds
    the bytes of the current line read so far, the last one first. The
    result is the tokens, and whether scanning stopped with [ErrTooLong].

    A line is found when its line feed is in the buffer, which grows to
    [MaxScanTokenSize] bytes and no further: a line of that many bytes or
    more before its line feed stops the scanner. At the end of the stream
    what is left, if not empty, is the last token; when it fills the buffer
    exactly, the scanner sees the end only if it came with the data. *)
Fixpoint scanLines (eager : bool) (data line : list ascii)
  : list (list ascii) * bool :=
  match data with
  | [] =>
      let n := Z.of_nat (length line) in
      if bool_decide (line = []) then ([], false)
      else if (n <? MaxScanTokenSize) || (eager && (n =? MaxScanTokenSize))
      then ([dropCR (reverse line)], false)
      else ([], true)
  | c :: rest =>
      if bool_decide (c = newline) then
        if Z.of_nat (length line) <? MaxScanTokenSize then
          let '(tokens, tooLong) := scanLines eager rest [] in
          (dropCR (reverse line) :: tokens, tooLong)
        else ([], true)
      else scanLines eager rest (c :: line)
  end.

(** [scanner.Text()] over the iterations of [for scanner.Scan()]. *)
Definition scanned (reader : Reader) : list (list ascii) :=
  fst (scanLines (endsWithData reader) (content reader) []).

(** [scanner.Err()] after the loop: the first error met, none at io.EOF. *)
Definition scanErr (reader : Reader) : option error :=
  if snd (scanLines (endsWithData reader) (content reader) [])
  then Some ErrTooLong
  else readErr reader.

(** [parseDelegatedRecord]: parses a single delegated record line. *)
Definition parseDelegatedRecord (line : list ascii) : error + DelegatedRecord :=
  let parts := Split line "|"%char in
  if (length parts <? 7)%nat
  then inl (Errorf (str "invalid record format: " ++ line))
  else inr (mkRecord (nth 0 parts []) (nth 1 parts []) (nth 2 parts [])
                     (nth 3 parts []) (nth 4 parts []) (nth 5 parts [])
                     (nth 6 parts [])).

(** One iteration of the scanning loop of [parseDelegatedFile]. *)
Definition parseStep (records : list DelegatedRecord) (text : list ascii)
  : list DelegatedRecord :=
  let line := TrimSpace text in
  (* Skip comments and empty lines *)
  if bool_decide (line = []) || HasPrefix line (str "#") then records
  (* Skip version and summary lines *)
  else if Contains line (str "|version|") || Contains line (str "|summary|") then records
  else
    match parseDelegatedRecord line with
    | inl _ => records  (* Skip malformed lines rather than failing completely *)
    | inr record => records ++ [record]
    end.

(** [parseDelegatedFile]: parses the RIR delegated file format. *)
Definition parseDelegatedFile (reader : Reader) : error + list DelegatedRecord :=
  let records := fold_left parseStep (scanned reader) [] in
  match scanErr reader with
  | Some err => inl (Errorf_w (str "error reading delegated file: ") err)
  | None => inr records
  end.

(** [isValidPublicASN]: checks if an ASN is a valid public ASN. *)
Definition isValidPublicASN (asn : Z) : bool :=
  if asn =? 0 then false
  else if (64512 <=? asn) && (asn <=? 65534) then false
  else if asn =? 65535 then false
  else if (4200000000 <=? asn) && (asn <=? 4294967294) then false
  else if asn =? 4294967295 then false
  else if (1 <=? asn) && (asn <=? 64511) then true
  else if (131072 <=? asn) && (asn <=? 4199999999) then true
  else false.

(** The loop [for i := 0; i < count; i++] of [extractASNsForCountry], with
    [n] iterations left. *)
Fixpoint expandRange (n : nat) (i startASN : Z) (asns : list Z) : list Z :=
  match n with
  | O => asns
  | S n' =>
      let asn := wrap64 (startASN + i) in
      expandRange n' (i + 1) startASN
                  (if isValidPublicASN asn then asns ++ [asn] else asns)
  end.

(** One iteration of the loop over the records. *)
Definition extractStep (countryCode : list ascii) (asns : list Z)
  (record : DelegatedRecord) : list Z :=
  if negb (bool_decide (Type_ record = str "asn"))
     || negb (bool_decide (CC record = countryCode)) then asns
  else if bool_decide (Status record = str "reserved")
          || bool_decide (Status record = str "available") then asns
  else
    match Atoi (Start record) with
    | None => asns
    | Some startASN =>
        match Atoi (Value record) with
        | None => asns
        | Some count => expandRange (Z.to_nat count) 0 startASN asns
        end
    end.

(** [extractASNsForCountry]: extracts ASN numbers for a specific country
    from delegated records. *)
Definition extractASNsForCountry (records : list DelegatedRecord)
  (countryCode : list ascii) : list Z :=
  fold_left (extractStep countryCode) records [].

(** An HTTP response: the status code and the body. *)
Record Response : Type := mkResponse { StatusCode : Z; Body : Reader }.

Section Registry.

(** [httpClient.Get]: the reply of the registry's server for a URL. *)
Variable httpGet : list ascii -> error + Response.

(** [fetchDelegatedRecords]: downloads and parses delegated records. *)
Definition fetchDelegatedRecords (url : list ascii) : error + list DelegatedRecord :=
  match httpGet url with
  | inl err => inl (Errorf_w (str "HTTP request failed: ") err)
  | inr resp =>
      if negb (StatusCode resp =? 200)
      then inl (Errorf (str "HTTP request failed with status: " ++ fmtInt (StatusCode resp)))
      else parseDelegatedFile (Body resp)
  end.

(** [FetchASNsForCountry]: fetches ASN allocations for a specific country
    (the progress messages it prints are left out). *)
Definition FetchASNsForCountry (countryCode : list ascii) : error + list Z :=
  match CountryToRIR !! countryCode with
  | None => inl (Errorf (str "no RIR mapping found for country code: " ++ countryCode))
  | Some rir =>
      match fetchDelegatedRecords (URL rir) with
      | inl err =>
          inl (Errorf_w (str "failed to fetch delegated records from "
                         ++ Name rir ++ str ": ") err)
      | inr records =>
          let asns := extractASNsForCountry records countryCode in
          inr (sortInts asns)
      end
  end.

End Registry.

(** ** The earlier version of the package (the file with [FetchIR] and
    [writeV4Prefixes]) *)

Module legacy.

(** [splitToBlocks] as the earlier version has it: a /24 is returned as it
    is, everything else goes through the loop; the shift [1 << (24 - bits)]
    panics on a negative count. *)
Definition splitToBlocks (prefix : netip.Prefix) : option (list netip.Prefix) :=
  if netip.Bits prefix =? 24 then Some [prefix]
  else
    let ipInt := ipToInt (netip.Addr_ prefix) in
    if 24 - netip.Bits prefix <? 0 then None
    else
      let blockCount := shl1 (24 - netip.Bits prefix) in
      if blockCount <? 0 then None
      else splitLoop (Z.to_nat blockCount) ipInt 256.

End legacy.

(** ** asn_delegated.go: the other entry points *)

(** The loop of [FetchIRAndCNASNs] over the countries that are left. *)
Fixpoint fetchCountries (httpGet : list ascii -> error + Response)
  (countries : list (list ascii)) (result : gmap (list ascii) (list Z))
  : error + gmap (list ascii) (list Z) :=
  match countries with
  | [] => inr result
  | country :: rest =>
      match FetchASNsForCountry httpGet country with
      | inl err =>
          inl (Errorf_w (str "failed to fetch ASNs for " ++ country ++ str ": ") err)
      | inr asns => fetchCountries httpGet rest (<[country := asns]> result)
      end
  end.

(** [FetchIRAndCNASNs]: fetches ASN allocations for both Iran and China. *)
Definition FetchIRAndCNASNs (httpGet : list ascii -> error + Response)
  : error + gmap (list ascii) (list Z) :=
  fetchCountries httpGet [str "IR"; str "CN"] ∅.

(** [GetRIRForCountry]: the RIR responsible for a country. *)
Definition GetRIRForCountry (countryCode : list ascii) : RIR * bool :=
  match CountryToRIR !! countryCode with
  | Some rir => (rir, true)
  | None => (mkRIR [] [], false)
  end.

(** ** Notions used to state the properties *)

(** The events of [k] attempts in a row: a download, then for every
    further attempt the back-off sleep of the attempt before it and a
    download. *)
Fixpoint schedule (k : nat) : list event :=
  match k with
  | O => []
  | S k' =>
      match k' with
      | O => [EvFetch]
      | S _ => schedule k' ++ [EvSleep (Z.of_nat k' * retryDelay); EvFetch]
      end
  end.

(** A byte value. *)
Definition isByte (b : Z) : Prop := 0 <= b < 256.

(** The 32-bit value of an IPv4 address (0 for the others). *)
Definition addr4 (ip : netip.Addr) : Z :=
  match ip with netip.Addr4 v => v | _ => 0 end.

(** The base (network) address of an IPv4 prefix, as [Prefix.Masked] gives it. *)
Definition networkAddr (p : netip.Prefix) : Z :=
  addr4 (netip.Addr_ (netip.Masked p)).

(** [n] consecutive /24 blocks from address [base] on. *)
Definition blocksFrom (base : Z) (n : nat) : list netip.Prefix :=
  (fun i : nat => netip.mkPrefix (netip.Addr4 (base + 256 * Z.of_nat i)) 24) <$> seq 0 n.

(** What the specification says of splitting a prefix [p] shorter than /24. *)
Definition SplitsInto24s (p : netip.Prefix) : Prop :=
  exists blocks,
    splitToBlocks p = Some blocks
    /\ Z.of_nat (length blocks) = 2 ^ (24 - netip.Bits p)
    /\ blocks = blocksFrom (networkAddr p) (length blocks)
    /\ NoDup blocks
    /\ (forall x, 0 <= x < 2 ^ 32 ->
          netip.Contains4 p x = true <->
          exists b, b ∈ blocks /\ netip.Contains4 b x = true)
    /\ (forall x b1 b2, 0 <= x < 2 ^ 32 -> b1 ∈ blocks -> b2 ∈ blocks ->
          netip.Contains4 b1 x = true -> netip.Contains4 b2 x = true -> b1 = b2).

(** 10.0.1.5/23: a prefix with host bits set. *)
Definition p_10_0_1_5_slash23 : netip.Prefix := netip.mkPrefix (netip.Addr4 167772421) 23.

(** A /24 block over a 32-bit address. *)
Definition isBlock24 (b : netip.Prefix) : Prop :=
  exists a, b = netip.mkPrefix (netip.Addr4 a) 24 /\ 0 <= a < 2 ^ 32.

(** The last octet of the block's address is zero. *)
Definition aligned24 (b : netip.Prefix) : Prop :=
  addr4 (netip.Addr_ b) mod 256 = 0.

(** [splitToBlocks] does not panic on [p]: every block of a prefix shorter
    than /24 starts below 2^32. *)
Definition splitFits (p : netip.Prefix) : Prop :=
  netip.Is4 (netip.Addr_ p) = true ->
  -1 <= netip.Bits p
  /\ (netip.Bits p < 24 ->
      addr4 (netip.Addr_ p) mod 2 ^ 32 + 256 * (2 ^ (24 - netip.Bits p) - 1) < 2 ^ 32).

(** Normalizing the output of the normalizer gives the same list. *)
Definition reNormalizes (prefixes : list netip.Prefix) : Prop :=
  forall out, convertToIPv4Blocks prefixes = Some out -> convertToIPv4Blocks out = Some out.

(** A list without duplicate networks: no two entries have the same
    network address and length. *)
Definition distinctNetworks (blocks : list netip.Prefix) : Prop :=
  NoDup (netip.Masked <$> blocks).

(** What the specification says of the list the normalizer makes of
    [prefixes]. *)
Definition normalizedOutput (prefixes : list netip.Prefix) : Prop :=
  forall out, convertToIPv4Blocks prefixes = Some out ->
    distinctNetworks out
    /\ Forall (fun b => netip.Bits b = 24) out
    /\ StronglySorted (cmpLe prefixCompare) out.

(** A source prefix that, when shorter than /24, has a zero last octet, as
    a network address has. *)
Definition alignedSource (p : netip.Prefix) : Prop :=
  netip.Is4 (netip.Addr_ p) = true -> netip.Bits p < 24 -> aligned24 p.

(** 10.0.2.0/24. *)
Definition p_10_0_2_0_slash24 : netip.Prefix := netip.mkPrefix (netip.Addr4 167772672) 24.




(** [strings.Join(fields, sep)] for a one-byte separator. *)
Fixpoint Join (fields : list (list ascii)) (sep : ascii) : list ascii :=
  match fields with
  | [] => []
  | [f] => f
  | f :: rest => f ++ sep :: Join rest sep
  end.

(** The text of a file with these lines, each ended by a line feed. *)
Definition textOf (lines : list (list ascii)) : list ascii :=
  lines ≫= (fun line => line ++ [newline]).


(** What one scanned line contributes to the records. *)
Definition lineRecord (text : list ascii) : option DelegatedRecord :=
  head (parseStep [] text).







(** A delegated file with two overlapping ASN records for IR. *)
Definition overlappingFile : Reader :=
  mkReader (textOf [str "ripencc|IR|asn|100|2|20110101|allocated";
                    str "ripencc|IR|asn|101|1|20110101|allocated"]) None false.

(** A record that [extractASNsForCountry] expands for [countryCode]. *)
Definition selectedFor (countryCode : list ascii) (record : DelegatedRecord) : Prop :=
  Type_ record = str "asn"
  /\ CC record = countryCode
  /\ Status record <> str "reserved"
  /\ Status record <> str "available".

(** ASN [a] lies in the range [start, start+count) of [record], a record
    that [extractASNsForCountry] selects for [countryCode]. *)
Definition inRangeOf (countryCode : list ascii) (a : Z) (record : DelegatedRecord) : Prop :=
  selectedFor countryCode record
  /\ exists startASN count,
       Atoi (Start record) = Some startASN /\ Atoi (Value record) = Some count
       /\ startASN <= a < startASN + count.

(** A delegated file with two disjoint ASN records for IR. *)
Definition disjointFile : Reader :=
  mkReader (textOf [str "ripencc|IR|asn|200|2|20110101|allocated";
                    str "ripencc|IR|asn|100|1|20110101|assigned"]) None false.

(** A BGP entry announced by one of [asns], over an IPv4 address. *)
Definition keptV4 (asns : list Z) (e : Prefix) : Prop :=
  ASN e ∈ asns /\ netip.Is4 (netip.Addr_ (CIDR e)) = true.

(** A BGP entry announced by one of [asns], over an IPv6 address. *)
Definition keptV6 (asns : list Z) (e : Prefix) : Prop :=
  ASN e ∈ asns /\ netip.Is6 (netip.Addr_ (CIDR e)) = true.

(** The prefix [p] widened to at most 24 bits: the range of addresses that
    normalisation makes of it. *)
Definition widen24 (p : netip.Prefix) : netip.Prefix :=
  netip.mkPrefix (netip.Addr_ p) (Z.min (netip.Bits p) 24).

(** A source prefix as a routing table carries it: a 32-bit address, a
    length of 0 to 32, and for lengths below 24 the network address. *)
Definition tableEntry (p : netip.Prefix) : Prop :=
  netip.Is4 (netip.Addr_ p) = true ->
  0 <= addr4 (netip.Addr_ p) < 2 ^ 32
  /\ 0 <= netip.Bits p <= 32
  /\ (netip.Bits p < 24 -> netip.Masked p = p).

(** * Properties *)

(** Case analysis on the integer tests of a goal, pruning dead branches. *)
Ltac zcases :=
  repeat (match goal with
          | |- context [Z.eqb ?x ?y] => destruct (Z.eqb_spec x y)
          | |- context [Z.leb ?x ?y] => destruct (Z.leb_spec x y)
          | |- context [Z.ltb ?x ?y] => destruct (Z.ltb_spec x y)
          end; simpl).

(** ** The public-ASN filter *)

Lemma isValidPublicASN_true (a : Z) :
  isValidPublicASN a = true <-> (1 <= a <= 64511 \/ 131072 <= a <= 4199999999).
Proof. unfold isValidPublicASN. zcases; split; intros; try discriminate; try reflexivity; lia. Qed.

(** C1: for every integer [a], [isValidPublicASN a] is true exactly when [a]
    lies in [1,64511] or in [131072,4199999999]; in particular it is false
    for 0, for 64512-65534, for 65535, for 4200000000-4294967294, for
    4294967295 and for the gap 65536-131071. *)
Theorem isValidPublicASN_spec (a : Z) :
  (isValidPublicASN a = true <-> (1 <= a <= 64511 \/ 131072 <= a <= 4199999999))
  /\ (a = 0 \/ 64512 <= a <= 65534 \/ a = 65535
      \/ 4200000000 <= a <= 4294967294 \/ a = 4294967295
      \/ 65536 <= a <= 131071 -> isValidPublicASN a = false).
Proof.
  split; [apply isValidPublicASN_true|].
  intros H. destruct (isValidPublicASN a) eqn:E; [|reflexivity].
  apply isValidPublicASN_true in E. lia.
Qed.

(** ** The comparator is a total order *)

Ltac cmp_cases :=
  unfold prefixCompare, cmpCompare, netip.Compare; cbv zeta;
  repeat first
    [ progress change (-1 =? 0) with false
    | progress change (1 =? 0) with false
    | progress change (0 =? 0) with true
    | progress cbn [negb]
    | match goal with
      | |- context [Z.ltb ?x ?y] => destruct (Z.ltb_spec x y)
      end ].

Lemma prefixCompare_le (a b : netip.Prefix) :
  prefixCompare a b <= 0 <->
  netip.BitLen (netip.Addr_ a) < netip.BitLen (netip.Addr_ b)
  \/ (netip.BitLen (netip.Addr_ a) = netip.BitLen (netip.Addr_ b)
      /\ (netip.Bits a < netip.Bits b
          \/ (netip.Bits a = netip.Bits b
              /\ (netip.addr_hi (netip.Addr_ a) < netip.addr_hi (netip.Addr_ b)
                  \/ (netip.addr_hi (netip.Addr_ a) = netip.addr_hi (netip.Addr_ b)
                      /\ netip.addr_lo (netip.Addr_ a) <= netip.addr_lo (netip.Addr_ b)))))).
Proof. cmp_cases; lia. Qed.

Lemma prefixCompare_lt (a b : netip.Prefix) :
  prefixCompare a b < 0 <->
  netip.BitLen (netip.Addr_ a) < netip.BitLen (netip.Addr_ b)
  \/ (netip.BitLen (netip.Addr_ a) = netip.BitLen (netip.Addr_ b)
      /\ (netip.Bits a < netip.Bits b
          \/ (netip.Bits a = netip.Bits b
              /\ (netip.addr_hi (netip.Addr_ a) < netip.addr_hi (netip.Addr_ b)
                  \/ (netip.addr_hi (netip.Addr_ a) = netip.addr_hi (netip.Addr_ b)
                      /\ netip.addr_lo (netip.Addr_ a) < netip.addr_lo (netip.Addr_ b)))))).
Proof. cmp_cases; lia. Qed.

(** The sort key determines the prefix. *)
Lemma prefix_key_inj (a b : netip.Prefix) :
  netip.BitLen (netip.Addr_ a) = netip.BitLen (netip.Addr_ b) ->
  netip.Bits a = netip.Bits b ->
  netip.addr_hi (netip.Addr_ a) = netip.addr_hi (netip.Addr_ b) ->
  netip.addr_lo (netip.Addr_ a) = netip.addr_lo (netip.Addr_ b) ->
  a = b.
Proof.
  destruct a as [[| v | hi lo] la], b as [[| v' | hi' lo'] lb];
    cbn [netip.BitLen netip.Addr_ netip.Bits netip.addr_hi netip.addr_lo];
    intros Hf Hl Hh Ho; try discriminate; subst; f_equal; f_equal; lia.
Qed.

Lemma prefixCompare_trans (a b c : netip.Prefix) :
  prefixCompare a b <= 0 -> prefixCompare b c <= 0 -> prefixCompare a c <= 0.
Proof. rewrite !prefixCompare_le. lia. Qed.

Lemma prefixCompare_antisym (a b : netip.Prefix) :
  prefixCompare a b <= 0 -> prefixCompare b a <= 0 -> a = b.
Proof. rewrite !prefixCompare_le. intros H1 H2. apply prefix_key_inj; lia. Qed.

Lemma prefixCompare_total (a b : netip.Prefix) :
  prefixCompare a b <= 0 \/ prefixCompare b a <= 0.
Proof. rewrite !prefixCompare_le. lia. Qed.

Lemma prefixCompare_skew (a b : netip.Prefix) :
  prefixCompare b a = - prefixCompare a b.
Proof. cmp_cases; lia. Qed.

#[global] Instance prefixLe_trans : Transitive (cmpLe prefixCompare).
Proof. intros a b c. apply prefixCompare_trans. Qed.

#[global] Instance prefixLe_antisym : AntiSymm (=) (cmpLe prefixCompare).
Proof. intros a b. apply prefixCompare_antisym. Qed.

#[global] Instance prefixLe_total : Total (cmpLe prefixCompare).
Proof. intros a b. apply prefixCompare_total. Qed.

(** C4: [prefixCompare] is a total order on prefixes (transitive,
    antisymmetric, total), and it orders first by address family (IPv4, 32
    bits, before IPv6, 128 bits), then by prefix length ascending, then by
    numeric address value ascending. *)
Theorem prefixCompare_total_order :
  (forall a b c, prefixCompare a b <= 0 -> prefixCompare b c <= 0 -> prefixCompare a c <= 0)
  /\ (forall a b, prefixCompare a b <= 0 -> prefixCompare b a <= 0 -> a = b)
  /\ (forall a b, prefixCompare a b <= 0 \/ prefixCompare b a <= 0)
  /\ (forall a b, prefixCompare b a = - prefixCompare a b)
  /\ (forall a b,
        prefixCompare a b < 0 <->
        netip.BitLen (netip.Addr_ a) < netip.BitLen (netip.Addr_ b)
        \/ (netip.BitLen (netip.Addr_ a) = netip.BitLen (netip.Addr_ b)
            /\ (netip.Bits a < netip.Bits b
                \/ (netip.Bits a = netip.Bits b
                    /\ (netip.addr_hi (netip.Addr_ a) < netip.addr_hi (netip.Addr_ b)
                        \/ (netip.addr_hi (netip.Addr_ a) = netip.addr_hi (netip.Addr_ b)
                            /\ netip.addr_lo (netip.Addr_ a) < netip.addr_lo (netip.Addr_ b)))))))
  /\ (forall v la hi lo lb,
        prefixCompare (netip.mkPrefix (netip.Addr4 v) la) (netip.mkPrefix (netip.Addr6 hi lo) lb) = -1)
  /\ (forall v w l,
        prefixCompare (netip.mkPrefix (netip.Addr4 v) l) (netip.mkPrefix (netip.Addr4 w) l) < 0
        <-> v < w).
Proof.
  repeat split.
  - apply prefixCompare_trans.
  - apply prefixCompare_antisym.
  - apply prefixCompare_total.
  - intros. apply prefixCompare_skew.
  - apply prefixCompare_lt.
  - apply prefixCompare_lt.
  - rewrite prefixCompare_lt.
    cbn [netip.BitLen netip.Addr_ netip.Bits netip.addr_hi netip.addr_lo]. lia.
  - rewrite prefixCompare_lt.
    cbn [netip.BitLen netip.Addr_ netip.Bits netip.addr_hi netip.addr_lo]. lia.
Qed.

(** ** The retry loop of the BGP fetch *)

Lemma seqZ_maxRetries : seqZ 1 maxRetries = [1; 2; 3; 4].
Proof. reflexivity. Qed.

(** C5: the BGP table fetch makes [k] attempts with [1 <= k <= 4]; the
    events are exactly the [k] downloads with, after the [i]-th failed
    attempt ([i < 4]) a sleep of [i] base units (linear back-off); the
    attempts before the [k]-th all failed; and either the [k]-th attempt
    succeeded and its data is returned without error, or [k = 4], all four
    failed, and the error returned wraps the error of the fourth attempt. *)
Theorem fetchWithRetrySimple_spec (net : nat -> error + list Prefix) (w0 : World) :
  let '(r, w) := fetchWithRetrySimple net w0 in
  exists k : nat,
    (1 <= k <= 4)%nat
    /\ downloads w = (downloads w0 + k)%nat
    /\ trace w = trace w0 ++ schedule k
    /\ (forall j, (j < k - 1)%nat -> exists e, net (downloads w0 + j)%nat = inl e)
    /\ ((exists data, net (downloads w0 + (k - 1))%nat = inr data /\ r = inr data)
        \/ (k = 4%nat
            /\ exists e, net (downloads w0 + 3)%nat = inl e
                 /\ r = inl (errWrap (str "all 4 attempts failed: " ++ Error e) e))).
Proof.
  destruct w0 as [d t].
  unfold fetchWithRetrySimple. rewrite seqZ_maxRetries.
  cbn [retryLoop bind fetchPrefixesSimple downloads trace ret].
  destruct (net d) as [e1|d1] eqn:E1;
    [ change (1 <? maxRetries) with true;
      cbn [Sleep bind fetchPrefixesSimple downloads trace ret];
      destruct (net (S d)) as [e2|d2] eqn:E2;
      [ change (2 <? maxRetries) with true;
        cbn [Sleep bind fetchPrefixesSimple downloads trace ret];
        destruct (net (S (S d))) as [e3|d3] eqn:E3;
        [ change (3 <? maxRetries) with true;
          cbn [Sleep bind fetchPrefixesSimple downloads trace ret];
          destruct (net (S (S (S d)))) as [e4|d4] eqn:E4;
          [ change (4 <? maxRetries) with false;
            cbn [Sleep bind fetchPrefixesSimple downloads trace ret] | ];
          exists 4%nat
        | exists 3%nat ]
      | exists 2%nat ]
    | exists 1%nat ].
  all: cbn [schedule Nat.sub downloads trace];
    rewrite <- ?app_assoc; cbn [app];
    rewrite ?Nat.add_succ_r, ?Nat.add_0_r.
  all: split; [lia|]; split; [reflexivity|]; split; [reflexivity|]; split.
  all: try (intros j Hj;
            do 3 (destruct j as [|j];
                  [rewrite ?Nat.add_succ_r, ?Nat.add_0_r; eauto; lia|]); lia).
  - right. split; [reflexivity|]. exists e4. split; [exact E4|]. reflexivity.
  - left. eauto.
  - left. eauto.
  - left. eauto.
  - left. eauto.
Qed.

(** C10: for the empty ASN list, [GetPrefixesForASNs] returns a [PrefixSet]
    with empty IPv4 and IPv6 sequences and no error, and leaves the world
    as it was: no download and no sleep has happened. *)
Theorem GetPrefixesForASNs_empty (net : nat -> error + list Prefix) (w : World) :
  GetPrefixesForASNs net [] w = (Some (inr (mkPrefixSet [] [])), w).
Proof. reflexivity. Qed.

(** ** Bytes and big-endian values *)

Lemma land_ff (x : Z) : Z.land x 0xff = x mod 256.
Proof. change 0xff with (Z.ones 8). rewrite Z.land_ones by lia. reflexivity. Qed.

Lemma lor_shiftl8 (acc b : Z) : isByte b -> Z.lor (Z.shiftl acc 8) b = acc * 256 + b.
Proof.
  intros Hb. rewrite Z.shiftl_mul_pow2 by lia. change (2 ^ 8) with 256.
  rewrite <- Z.lxor_lor, <- Z.add_nocarry_lxor; try reflexivity.
  all: apply Z.bits_inj'; intros n Hn; rewrite Z.land_spec, Z.bits_0.
  all: destruct (Z.lt_ge_cases n 8) as [Hlt|Hge].
  all: try (replace (acc * 256) with (acc * 2 ^ 8) by reflexivity;
            rewrite Z.mul_pow2_bits_low by lia; reflexivity).
  all: rewrite (Z.bits_above_log2 b n); [apply andb_false_r|apply Hb|].
  all: destruct (Z.eq_dec b 0) as [->|Hne]; [simpl; lia|].
  all: apply Z.log2_lt_pow2; [unfold isByte in Hb; lia|].
  all: eapply Z.lt_le_trans with (2 ^ 8); [unfold isByte in Hb; change (2 ^ 8) with 256; lia|].
  all: apply Z.pow_le_mono_r; lia.
Qed.

Lemma bePut4 (v : Z) :
  netip.bePut 4 v = [v / 2 ^ 24 mod 256; v / 2 ^ 16 mod 256; v / 2 ^ 8 mod 256; v mod 256].
Proof.
  unfold netip.bePut. cbn [seq rev app map].
  rewrite !land_ff, !Z.shiftr_div_pow2 by lia.
  change (8 * Z.of_nat 3) with 24. change (8 * Z.of_nat 2) with 16.
  change (8 * Z.of_nat 1) with 8. change (8 * Z.of_nat 0) with 0.
  rewrite Z.pow_0_r, Z.div_1_r. reflexivity.
Qed.

Lemma beUint4 (a b c d : Z) :
  isByte a -> isByte b -> isByte c -> isByte d ->
  netip.beUint [a; b; c; d] = ((a * 256 + b) * 256 + c) * 256 + d.
Proof.
  intros Ha Hb Hc Hd. unfold netip.beUint. cbn [fold_left].
  rewrite !lor_shiftl8 by assumption. lia.
Qed.

Lemma bePut4_bytes (v : Z) : Forall isByte (netip.bePut 4 v).
Proof.
  rewrite bePut4. repeat constructor; unfold isByte; apply Z.mod_pos_bound; lia.
Qed.

Lemma beUint_bePut4 (v : Z) : netip.beUint (netip.bePut 4 v) = v mod 2 ^ 32.
Proof.
  rewrite bePut4, beUint4; try (unfold isByte; apply Z.mod_pos_bound; lia).
  change (2 ^ 24) with 16777216. change (2 ^ 16) with 65536.
  change (2 ^ 8) with 256. change (2 ^ 32) with 4294967296.
  Z.div_mod_to_equations. lia.
Qed.

Lemma bePut4_beUint (a b c d : Z) :
  isByte a -> isByte b -> isByte c -> isByte d ->
  netip.bePut 4 (netip.beUint [a; b; c; d]) = [a; b; c; d].
Proof.
  intros Ha Hb Hc Hd. rewrite beUint4, bePut4 by assumption. unfold isByte in *.
  change (2 ^ 24) with 16777216. change (2 ^ 16) with 65536. change (2 ^ 8) with 256.
  repeat f_equal; Z.div_mod_to_equations; lia.
Qed.

Lemma ipToInt_Addr4 (v : Z) : ipToInt (netip.Addr4 v) = v mod 2 ^ 32.
Proof. apply beUint_bePut4. Qed.

Lemma intToIP_fits (n : Z) : 0 <= n < 2 ^ 32 -> intToIP n = Some (netip.Addr4 n).
Proof.
  intros Hn. unfold intToIP, FillBytes.
  rewrite Z.abs_eq by lia. change (8 * Z.of_nat 4) with 32.
  destruct (Z.ltb_spec n (2 ^ 32)); [|lia]. cbn [mbind option_bind].
  unfold netip.AddrFromSlice. rewrite bePut4. cbn [length Nat.eqb fst].
  rewrite <- bePut4. unfold netip.AddrFrom4. rewrite beUint_bePut4.
  rewrite Z.mod_small by lia. reflexivity.
Qed.

Lemma intToIP_overflow (n : Z) : 2 ^ 32 <= n -> intToIP n = None.
Proof.
  intros Hn. unfold intToIP, FillBytes.
  rewrite Z.abs_eq by lia. change (8 * Z.of_nat 4) with 32.
  destruct (Z.ltb_spec n (2 ^ 32)); [lia|]. reflexivity.
Qed.

(** ** Alignment of a /24-or-longer prefix *)

Lemma PrefixFrom_Addr4_24 (a : Z) :
  netip.PrefixFrom (netip.Addr4 a) 24 = netip.mkPrefix (netip.Addr4 a) 24.
Proof. reflexivity. Qed.

Lemma splitToBlocks_ge24 (v bits : Z) :
  24 <= bits ->
  splitToBlocks (netip.mkPrefix (netip.Addr4 v) bits)
  = Some [netip.mkPrefix (netip.Addr4 (v mod 2 ^ 32 - v mod 256)) 24].
Proof.
  intros Hb. unfold splitToBlocks. cbn [netip.Bits netip.Addr_].
  destruct (Z.leb_spec 24 bits); [|lia].
  cbn [netip.As4 mbind option_bind]. rewrite bePut4.
  cbn [list_insert insert]. unfold netip.AddrFromSlice. cbn [length Nat.eqb fst].
  unfold netip.AddrFrom4.
  rewrite beUint4; try (unfold isByte; try apply Z.mod_pos_bound; lia).
  rewrite PrefixFrom_Addr4_24. do 4 f_equal.
  change (2 ^ 24) with 16777216. change (2 ^ 16) with 65536.
  change (2 ^ 8) with 256. change (2 ^ 32) with 4294967296.
  Z.div_mod_to_equations. lia.
Qed.

(** C6: for every IPv4 prefix [p] with prefix length at least 24,
    [splitToBlocks] returns a single /24 prefix whose address has the
    first three octets (the first 24 bits) of [p]'s address and a zero last
    octet. *)
Theorem splitToBlocks_align (p : netip.Prefix) :
  netip.Is4 (netip.Addr_ p) = true ->
  24 <= netip.Bits p ->
  exists b0 b1 b2 b3 a,
    netip.As4 (netip.Addr_ p) = Some [b0; b1; b2; b3]
    /\ splitToBlocks p = Some [netip.mkPrefix (netip.Addr4 a) 24]
    /\ netip.As4 (netip.Addr4 a) = Some [b0; b1; b2; 0]
    /\ 0 <= a < 2 ^ 32
    /\ a mod 256 = 0
    /\ (forall i, 8 <= i < 32 -> Z.testbit a i = Z.testbit (addr4 (netip.Addr_ p)) i).
Proof.
  destruct p as [[| v | hi lo] bits]; cbn [netip.Is4 netip.Addr_ netip.Bits];
    try discriminate.
  intros _ Hb.
  exists (v / 2 ^ 24 mod 256), (v / 2 ^ 16 mod 256), (v / 2 ^ 8 mod 256), (v mod 256),
    (v mod 2 ^ 32 - v mod 256).
  assert (Ha : v mod 2 ^ 32 - v mod 256 = 256 * (v mod 2 ^ 32 / 256)).
  { change (2 ^ 32) with 4294967296. Z.div_mod_to_equations. lia. }
  split; [cbn [netip.As4]; f_equal; apply bePut4|].
  split; [apply splitToBlocks_ge24, Hb|].
  split.
  { cbn [netip.As4]. rewrite bePut4.
    change (2 ^ 24) with 16777216; change (2 ^ 16) with 65536;
      change (2 ^ 8) with 256; change (2 ^ 32) with 4294967296.
    f_equal. f_equal; [|f_equal; [|f_equal; [|f_equal]]];
      Z.div_mod_to_equations; lia. }
  split; [change (2 ^ 32) with 4294967296; Z.div_mod_to_equations; lia|].
  split; [Z.div_mod_to_equations; lia|].
  intros i Hi. cbn [addr4]. rewrite Ha.
  replace (256 * (v mod 2 ^ 32 / 256)) with ((v mod 2 ^ 32 / 2 ^ 8) * 2 ^ 8)
    by (change (2 ^ 8) with 256; lia).
  rewrite Z.mul_pow2_bits by lia.
  rewrite Z.div_pow2_bits by lia.
  replace (i - 8 + 8) with i by lia.
  apply Z.mod_pow2_bits_low. lia.
Qed.

Lemma splitToBlocks_align_witness :
  exists b0 b1 b2 b3 a,
    netip.As4 (netip.Addr4 167772877) = Some [b0; b1; b2; b3]
    /\ splitToBlocks (netip.mkPrefix (netip.Addr4 167772877) 28)
       = Some [netip.mkPrefix (netip.Addr4 a) 24]
    /\ netip.As4 (netip.Addr4 a) = Some [b0; b1; b2; 0]
    /\ 0 <= a < 2 ^ 32
    /\ a mod 256 = 0
    /\ (forall i, 8 <= i < 32 -> Z.testbit a i = Z.testbit 167772877 i).
Proof.
  apply (splitToBlocks_align (netip.mkPrefix (netip.Addr4 167772877) 28)).
  - reflexivity.
  - simpl. lia.
Defined.

(** ** Splitting a prefix shorter than /24 *)

Lemma wrap64_small (x : Z) : - 2 ^ 63 <= x < 2 ^ 63 -> wrap64 x = x.
Proof.
  intros Hx. unfold wrap64.
  change (2 ^ 63) with 9223372036854775808 in *.
  change (2 ^ 64) with 18446744073709551616.
  Z.div_mod_to_equations. lia.
Qed.

Lemma shl1_pow (s : Z) : 0 <= s <= 62 -> shl1 s = 2 ^ s.
Proof.
  intros Hs. unfold shl1. destruct (Z.ltb_spec s 64); [|lia].
  rewrite Z.shiftl_1_l. apply wrap64_small.
  assert (0 < 2 ^ s) by (apply Z.pow_pos_nonneg; lia).
  assert (2 ^ s <= 2 ^ 62) by (apply Z.pow_le_mono_r; lia).
  change (2 ^ 62) with 4611686018427387904 in *.
  change (2 ^ 63) with 9223372036854775808. lia.
Qed.

Lemma blocksFrom_S (base : Z) (n : nat) :
  blocksFrom base (S n)
  = netip.mkPrefix (netip.Addr4 base) 24 :: blocksFrom (base + 256) n.
Proof.
  unfold blocksFrom. cbn [seq fmap list_fmap]. rewrite Z.mul_0_r, Z.add_0_r.
  f_equal. rewrite <- seq_shift. rewrite <- list_fmap_compose.
  apply list_fmap_ext. intros _ i _. cbn. do 2 f_equal. lia.
Qed.

Lemma splitLoop_fits (n : nat) (base : Z) :
  0 <= base ->
  (forall i : nat, (i < n)%nat -> base + 256 * Z.of_nat i < 2 ^ 32) ->
  splitLoop n base 256 = Some (blocksFrom base n).
Proof.
  revert base. induction n as [|n IH]; intros base Hb Hfit; [reflexivity|].
  cbn [splitLoop]. rewrite intToIP_fits.
  2:{ specialize (Hfit 0%nat). lia. }
  cbn [mbind option_bind]. rewrite IH.
  - cbn [mbind option_bind]. rewrite blocksFrom_S. reflexivity.
  - lia.
  - intros i Hi. specialize (Hfit (S i)). lia.
Qed.

Lemma splitLoop_overflow (n : nat) (base : Z) :
  0 <= base ->
  (exists i : nat, (i < n)%nat /\ 2 ^ 32 <= base + 256 * Z.of_nat i) ->
  splitLoop n base 256 = None.
Proof.
  revert base. induction n as [|n IH]; intros base Hb (i & Hi & Hov); [lia|].
  cbn [splitLoop]. destruct (Z.lt_ge_cases base (2 ^ 32)) as [Hlt|Hge].
  - rewrite intToIP_fits by lia. cbn [mbind option_bind].
    rewrite IH; [reflexivity|lia|].
    destruct i as [|i]; [lia|]. exists i. split; [lia|]. lia.
  - rewrite intToIP_overflow by lia. reflexivity.
Qed.

Lemma blocksFrom_length (base : Z) (n : nat) : length (blocksFrom base n) = n.
Proof. unfold blocksFrom. rewrite length_fmap, length_seq. reflexivity. Qed.

Lemma elem_of_blocksFrom (base : Z) (n : nat) (b : netip.Prefix) :
  b ∈ blocksFrom base n <->
  exists i : nat, (i < n)%nat /\ b = netip.mkPrefix (netip.Addr4 (base + 256 * Z.of_nat i)) 24.
Proof.
  unfold blocksFrom. rewrite list_elem_of_fmap. split.
  - intros (i & -> & Hi). apply elem_of_seq in Hi. exists i. split; [lia|reflexivity].
  - intros (i & Hi & ->). exists i. split; [reflexivity|]. apply elem_of_seq. lia.
Qed.

Lemma NoDup_blocksFrom (base : Z) (n : nat) : NoDup (blocksFrom base n).
Proof.
  unfold blocksFrom. apply NoDup_fmap_2; [|apply NoDup_seq].
  intros i j Hij. injection Hij as Hij. lia.
Qed.

(** The split of a prefix shorter than /24 whose blocks all fit below 2^32. *)
Lemma splitToBlocks_lt24 (v bits : Z) :
  -1 <= bits < 24 ->
  v mod 2 ^ 32 + 256 * (2 ^ (24 - bits) - 1) < 2 ^ 32 ->
  splitToBlocks (netip.mkPrefix (netip.Addr4 v) bits)
  = Some (blocksFrom (v mod 2 ^ 32) (Z.to_nat (2 ^ (24 - bits)))).
Proof.
  intros Hb Hfit. unfold splitToBlocks. cbn [netip.Bits netip.Addr_].
  destruct (Z.leb_spec 24 bits); [lia|].
  rewrite shl1_pow by lia.
  assert (0 < 2 ^ (24 - bits)) by (apply Z.pow_pos_nonneg; lia).
  destruct (Z.ltb_spec (2 ^ (24 - bits)) 0); [lia|].
  rewrite ipToInt_Addr4. apply splitLoop_fits.
  - apply Z.mod_pos_bound. lia.
  - intros i Hi. lia.
Qed.

Lemma div_eq_iff (x d m : Z) :
  0 < d -> x / d = m <-> m * d <= x < (m + 1) * d.
Proof.
  intros Hd. split.
  - intros <-. pose proof (Z.mul_div_le x d Hd).
    pose proof (Z.mul_succ_div_gt x d Hd). lia.
  - intros Hx. symmetry. apply (Z.div_unique x d m (x - m * d)); lia.
Qed.

Lemma Contains4_div (v bits x : Z) :
  0 <= bits <= 32 ->
  netip.Contains4 (netip.mkPrefix (netip.Addr4 v) bits) x = true
  <-> x / 2 ^ (32 - bits) = v / 2 ^ (32 - bits).
Proof.
  intros Hb. unfold netip.Contains4, netip.IsValid. cbn [netip.Addr_ netip.Bits].
  destruct (Z.leb_spec 0 bits); [|lia]. cbn [andb].
  rewrite Z.eqb_eq, Z.shiftr_lxor, Z.lxor_eq_0_iff.
  rewrite !Z.shiftr_div_pow2 by lia. reflexivity.
Qed.

Lemma Masked_Addr4 (v bits : Z) :
  0 <= bits <= 32 ->
  netip.Masked (netip.mkPrefix (netip.Addr4 v) bits)
  = netip.mkPrefix (netip.Addr4 (v / 2 ^ (32 - bits) * 2 ^ (32 - bits))) bits.
Proof.
  intros Hb. unfold netip.Masked, netip.IsValid. cbn [netip.Addr_ netip.Bits].
  destruct (Z.leb_spec 0 bits); [|lia].
  rewrite Z.shiftl_mul_pow2, Z.shiftr_div_pow2 by lia. reflexivity.
Qed.

(** The facts about a masked prefix shorter than /24 that the proofs use:
    with [K] blocks of 256 addresses, the address is a multiple of
    [256 * K] and the whole range lies below 2^32. *)
Lemma masked_range (v bits : Z) :
  0 <= v < 2 ^ 32 -> 0 <= bits < 24 ->
  netip.Masked (netip.mkPrefix (netip.Addr4 v) bits) = netip.mkPrefix (netip.Addr4 v) bits ->
  let K := 2 ^ (24 - bits) in
  0 < K /\ 2 ^ (32 - bits) = 256 * K
  /\ v / (256 * K) * (256 * K) = v /\ v + 256 * K <= 2 ^ 32.
Proof.
  intros Hv Hb HM K. rewrite Masked_Addr4 in HM by lia.
  injection HM as HM.
  assert (HK : 0 < K) by (apply Z.pow_pos_nonneg; lia).
  assert (Hk : 2 ^ (32 - bits) = 256 * K).
  { replace (32 - bits) with (8 + (24 - bits)) by lia.
    rewrite Z.pow_add_r by lia. reflexivity. }
  rewrite Hk in HM.
  assert (HP : 2 ^ 32 = 256 * K * 2 ^ bits).
  { rewrite <- Hk, <- Z.pow_add_r by lia. f_equal. lia. }
  assert (0 < 2 ^ bits) by (apply Z.pow_pos_nonneg; lia).
  repeat split; try assumption.
  set (m := v / (256 * K)) in *.
  assert (m < 2 ^ bits) by nia. nia.
Qed.

(** C2, as amended: for every IPv4 prefix [p] with prefix length [L < 24]
    whose address is its network address ([Masked p = p]: no bit beyond
    [L] is set), [splitToBlocks] returns exactly [2^(24-L)] distinct
    /24 networks, in increasing address order, starting at [p]'s base
    address and 256 addresses apart, which cover [p]'s address range
    exactly, without gaps or overlaps. *)
Theorem splitToBlocks_masked (p : netip.Prefix) :
  netip.Is4 (netip.Addr_ p) = true ->
  0 <= addr4 (netip.Addr_ p) < 2 ^ 32 ->
  0 <= netip.Bits p < 24 ->
  netip.Masked p = p ->
  SplitsInto24s p.
Proof.
  destruct p as [[| v | hi lo] bits]; cbn [netip.Is4 netip.Addr_ netip.Bits addr4];
    try discriminate.
  intros _ Hv Hb HM.
  destruct (masked_range v bits Hv Hb HM) as (HK & Hk & Hm & Htop).
  set (K := 2 ^ (24 - bits)) in *.
  unfold SplitsInto24s. cbn [netip.Bits]. fold K.
  exists (blocksFrom v (Z.to_nat K)).
  assert (Hlen : length (blocksFrom v (Z.to_nat K)) = Z.to_nat K)
    by apply blocksFrom_length.
  split.
  { rewrite <- (Z.mod_small v (2 ^ 32)) at 2 by lia.
    apply splitToBlocks_lt24; [lia|]. rewrite Z.mod_small by lia. fold K. lia. }
  split; [rewrite Hlen; lia|].
  split.
  { rewrite Hlen. f_equal. unfold networkAddr. rewrite HM. reflexivity. }
  split; [apply NoDup_blocksFrom|].
  assert (Hq : v / 256 * 256 = v).
  { rewrite <- Hm at 2. rewrite <- Hm at 1.
    replace (v / (256 * K) * (256 * K)) with (v / (256 * K) * K * 256) by lia.
    rewrite Z.div_mul by lia. lia. }
  assert (Hd : forall n, (v + 256 * n) / 256 = v / 256 + n).
  { intros n. rewrite (Z.mul_comm 256 n), Z.div_add by lia. reflexivity. }
  assert (Hin24 : forall x (i : nat),
             netip.Contains4 (netip.mkPrefix (netip.Addr4 (v + 256 * Z.of_nat i)) 24) x = true
             <-> v + 256 * Z.of_nat i <= x < v + 256 * Z.of_nat i + 256).
  { intros x i. rewrite Contains4_div by lia. change (2 ^ (32 - 24)) with 256.
    rewrite Hd, div_eq_iff by lia. lia. }
  split.
  - intros x Hx. rewrite Contains4_div by lia. rewrite Hk.
    rewrite div_eq_iff by lia. rewrite Hm. split.
    + intros Hin. set (i := x / 256 - v / 256).
      pose proof (Z.mul_div_le x 256 ltac:(lia)).
      pose proof (Z.mul_succ_div_gt x 256 ltac:(lia)).
      assert (Hi : 0 <= i < K) by (unfold i; nia).
      exists (netip.mkPrefix (netip.Addr4 (v + 256 * Z.of_nat (Z.to_nat i))) 24).
      split.
      * apply elem_of_blocksFrom. exists (Z.to_nat i). split; [lia|reflexivity].
      * apply Hin24. rewrite Z2Nat.id by lia. unfold i. lia.
    + intros (b & Hbin & Hc). apply elem_of_blocksFrom in Hbin as (i & Hi & ->).
      apply Hin24 in Hc. assert (Z.of_nat i < K) by lia. nia.
  - intros x b1 b2 Hx H1 H2 Hc1 Hc2.
    apply elem_of_blocksFrom in H1 as (i & Hi & ->).
    apply elem_of_blocksFrom in H2 as (j & Hj & ->).
    apply Hin24 in Hc1. apply Hin24 in Hc2. do 2 f_equal. lia.
Qed.

(** C2 fails as stated: 10.0.1.5/23 is an IPv4 prefix shorter than /24
    whose base address is 10.0.0.0, and its split starts at 10.0.1.5. *)
Lemma splitToBlocks_unmasked_counterexample : ~ SplitsInto24s p_10_0_1_5_slash23.
Proof.
  intros (blocks & Hsplit & _ & Hbase & _).
  vm_compute in Hsplit. injection Hsplit as <-.
  vm_compute in Hbase. discriminate Hbase.
Qed.

Lemma splitToBlocks_masked_witness :
  SplitsInto24s (netip.mkPrefix (netip.Addr4 167772160) 23).
Proof.
  apply splitToBlocks_masked.
  - reflexivity.
  - simpl. lia.
  - simpl. lia.
  - reflexivity.
Defined.

(** ** The normalizer *)

Lemma intToIP_Some (n : Z) (ip : netip.Addr) :
  intToIP n = Some ip -> ip = netip.Addr4 (Z.abs n) /\ Z.abs n < 2 ^ 32.
Proof.
  unfold intToIP, FillBytes. change (8 * Z.of_nat 4) with 32.
  destruct (Z.ltb_spec (Z.abs n) (2 ^ 32)); [|discriminate].
  cbn [mbind option_bind]. intros [= <-]. split; [|assumption].
  unfold netip.AddrFromSlice. rewrite bePut4. cbn [length Nat.eqb fst].
  rewrite <- bePut4. unfold netip.AddrFrom4. rewrite beUint_bePut4.
  rewrite Z.mod_small by lia. reflexivity.
Qed.

Lemma splitLoop_blocks (n : nat) (base inc : Z) (bs : list netip.Prefix) :
  splitLoop n base inc = Some bs -> Forall isBlock24 bs.
Proof.
  revert base bs. induction n as [|n IH]; intros base bs; cbn [splitLoop].
  - intros [= <-]. constructor.
  - destruct (intToIP base) as [ip|] eqn:Hip; [|discriminate].
    cbn [mbind option_bind].
    destruct (splitLoop n (base + inc) inc) as [rest|] eqn:Hrest; [|discriminate].
    cbn [mbind option_bind]. intros [= <-].
    apply intToIP_Some in Hip as [-> Hlt]. constructor; [|eapply IH, Hrest].
    exists (Z.abs base). split; [reflexivity|lia].
Qed.

Lemma splitToBlocks_blocks (p : netip.Prefix) (bs : list netip.Prefix) :
  netip.Is4 (netip.Addr_ p) = true ->
  splitToBlocks p = Some bs -> Forall isBlock24 bs.
Proof.
  destruct p as [[| v | hi lo] bits]; cbn [netip.Is4 netip.Addr_]; try discriminate.
  intros _. destruct (Z.le_gt_cases 24 bits) as [Hge|Hlt].
  - rewrite splitToBlocks_ge24 by assumption. intros [= <-].
    constructor; [|constructor]. eexists. split; [reflexivity|].
    change (2 ^ 32) with 4294967296. Z.div_mod_to_equations. lia.
  - unfold splitToBlocks. cbn [netip.Bits netip.Addr_].
    destruct (Z.leb_spec 24 bits); [lia|].
    destruct (shl1 (24 - bits) <? 0); [discriminate|]. apply splitLoop_blocks.
Qed.

Lemma splitToBlocks_fits (p : netip.Prefix) :
  netip.Is4 (netip.Addr_ p) = true -> splitFits p -> is_Some (splitToBlocks p).
Proof.
  intros H4 Hfit. destruct (Hfit H4) as [Hb Hlt].
  destruct p as [[| v | hi lo] bits]; cbn [netip.Is4 netip.Addr_ netip.Bits addr4] in *;
    try discriminate.
  destruct (Z.le_gt_cases 24 bits) as [Hge|Hlt'].
  - rewrite splitToBlocks_ge24 by assumption. eauto.
  - rewrite splitToBlocks_lt24 by lia. eauto.
Qed.

(** The block set after the first loop: what was there, and the blocks of
    every IPv4 prefix. *)
Lemma collectBlocks_elem (prefixes : list netip.Prefix) (S0 S1 : gset netip.Prefix) :
  collectBlocks prefixes S0 = Some S1 ->
  forall b, b ∈ S1 <->
    b ∈ S0 \/ exists p bs, p ∈ prefixes /\ netip.Is4 (netip.Addr_ p) = true
                         /\ splitToBlocks p = Some bs /\ b ∈ bs.
Proof.
  revert S0. induction prefixes as [|p ps IH]; intros S0; cbn [collectBlocks].
  - intros [= <-] b. split; [auto|]. intros [H|(p & bs & Hp & _)]; [assumption|].
    inversion Hp.
  - destruct (netip.Is4 (netip.Addr_ p)) eqn:H4; cbn [negb].
    + destruct (splitToBlocks p) as [blocks|] eqn:Hs; [|discriminate].
      cbn [mbind option_bind]. intros Hc b. rewrite (IH _ Hc b).
      rewrite elem_of_union, elem_of_list_to_set. split.
      * intros [[Hb|Hb]|(q & bs & Hq & H4q & Hsq & Hb)].
        -- right. exists p, blocks. split; [left|]. done.
        -- left. assumption.
        -- right. exists q, bs. split; [right; assumption|]. done.
      * intros [Hb|(q & bs & Hq & H4q & Hsq & Hb)]; [left; right; assumption|].
        apply elem_of_cons in Hq as [->|Hq].
        -- left. left. congruence.
        -- right. exists q, bs. done.
    + intros Hc b. rewrite (IH _ Hc b). split.
      * intros [Hb|(q & bs & Hq & Hrest)]; [left; assumption|].
        right. exists q, bs. split; [right; assumption|assumption].
      * intros [Hb|(q & bs & Hq & H4q & Hrest)]; [left; assumption|].
        apply elem_of_cons in Hq as [->|Hq]; [congruence|].
        right. exists q, bs. done.
Qed.

Lemma collectBlocks_fits (prefixes : list netip.Prefix) (S0 : gset netip.Prefix) :
  Forall splitFits prefixes -> is_Some (collectBlocks prefixes S0).
Proof.
  revert S0. induction prefixes as [|p ps IH]; intros S0 Hfit; cbn [collectBlocks].
  - eauto.
  - apply Forall_cons in Hfit as [Hp Hps].
    destruct (netip.Is4 (netip.Addr_ p)) eqn:H4; cbn [negb]; [|apply IH, Hps].
    destruct (splitToBlocks_fits p H4 Hp) as [bs ->]. cbn [mbind option_bind].
    apply IH, Hps.
Qed.

(** [SortFunc] with [prefixCompare] gives the one sorted arrangement. *)
Lemma SortFunc_Permutation {A : Type} (cmp : A -> A -> Z) (l : list A) :
  SortFunc cmp l ≡ₚ l.
Proof. apply merge_sort_Permutation. Qed.

Lemma SortFunc_sorted (l : list netip.Prefix) :
  StronglySorted (cmpLe prefixCompare) (SortFunc prefixCompare l).
Proof. apply StronglySorted_merge_sort; apply _. Qed.

Lemma SortFunc_unique (l sorted : list netip.Prefix) :
  sorted ≡ₚ l -> StronglySorted (cmpLe prefixCompare) sorted ->
  SortFunc prefixCompare l = sorted.
Proof.
  intros Hperm Hsorted. apply (StronglySorted_unique (cmpLe prefixCompare)).
  - apply SortFunc_sorted.
  - assumption.
  - rewrite SortFunc_Permutation. symmetry. assumption.
Qed.

Lemma sorted_NoDup_strict (l : list netip.Prefix) :
  StronglySorted (cmpLe prefixCompare) l -> NoDup l ->
  StronglySorted (fun a b => prefixCompare a b < 0) l.
Proof.
  induction 1 as [|a l Hl IH Ha]; intros Hnd; [constructor|].
  apply NoDup_cons in Hnd as [Hnotin Hnd]. constructor; [apply IH, Hnd|].
  apply Forall_forall. intros b Hb.
  pose proof (proj1 (Forall_forall _ _) Ha b Hb) as Hle. unfold cmpLe in Hle.
  destruct (Z.eq_dec (prefixCompare a b) 0) as [H0|]; [|lia].
  exfalso. apply Hnotin. replace a with b; [assumption|].
  apply prefixCompare_antisym; [|lia]. rewrite prefixCompare_skew. lia.
Qed.

Lemma convertToIPv4Blocks_facts (prefixes out : list netip.Prefix) :
  convertToIPv4Blocks prefixes = Some out ->
  NoDup out
  /\ Forall isBlock24 out
  /\ StronglySorted (cmpLe prefixCompare) out
  /\ (forall b, b ∈ out <->
        exists p bs, p ∈ prefixes /\ netip.Is4 (netip.Addr_ p) = true
                     /\ splitToBlocks p = Some bs /\ b ∈ bs).
Proof.
  unfold convertToIPv4Blocks.
  destruct prefixes as [|p ps] eqn:Hps.
  { cbn. intros [= <-]. repeat split; try constructor.
    - intros H. inversion H.
    - intros (p & bs & Hp & _). inversion Hp. }
  rewrite <- Hps. replace (length prefixes =? 0)%nat with false by (subst; reflexivity).
  destruct (collectBlocks prefixes ∅) as [S1|] eqn:Hc; [|discriminate].
  cbn [mbind option_bind]. intros [= <-].
  pose proof (collectBlocks_elem _ _ _ Hc) as Hel.
  assert (Hmem : forall b, b ∈ SortFunc prefixCompare (elements S1) <-> b ∈ S1).
  { intros b. rewrite SortFunc_Permutation. apply elem_of_elements. }
  repeat split.
  - rewrite SortFunc_Permutation. apply NoDup_elements.
  - apply Forall_forall. intros b Hb. apply Hmem, Hel in Hb.
    destruct Hb as [Hb|(q & bs & Hq & H4 & Hs & Hb)]; [set_solver|].
    pose proof (splitToBlocks_blocks q bs H4 Hs) as Hall.
    apply (proj1 (Forall_forall _ _) Hall b Hb).
  - apply SortFunc_sorted.
  - intros Hb. apply Hmem, Hel in Hb. destruct Hb as [Hb|Hb]; [set_solver|assumption].
  - intros Hb. apply Hmem, Hel. right. assumption.
Qed.

Lemma splitLoop_aligned (n : nat) (base : Z) (bs : list netip.Prefix) :
  splitLoop n base 256 = Some bs -> base mod 256 = 0 -> Forall aligned24 bs.
Proof.
  revert base bs. induction n as [|n IH]; intros base bs; cbn [splitLoop].
  - intros [= <-] _. constructor.
  - destruct (intToIP base) as [ip|] eqn:Hip; [|discriminate].
    cbn [mbind option_bind].
    destruct (splitLoop n (base + 256) 256) as [rest|] eqn:Hrest; [|discriminate].
    cbn [mbind option_bind]. intros [= <-] Hb0.
    apply intToIP_Some in Hip as [-> Hlt]. constructor.
    + unfold aligned24. rewrite PrefixFrom_Addr4_24. cbn [netip.Addr_ addr4].
      destruct (Z.abs_spec base) as [[_ ->]|[_ ->]]; [assumption|].
      Z.div_mod_to_equations. lia.
    + apply (IH _ _ Hrest). Z.div_mod_to_equations. lia.
Qed.

Lemma aligned_sources_blocks (prefixes out : list netip.Prefix) :
  Forall alignedSource prefixes ->
  convertToIPv4Blocks prefixes = Some out ->
  Forall aligned24 out.
Proof.
  intros Hal Hout.
  destruct (convertToIPv4Blocks_facts _ _ Hout) as (_ & _ & _ & Hmem).
  apply Forall_forall. intros b Hb. apply Hmem in Hb as (p & bs & Hp & H4 & Hs & Hb).
  pose proof (proj1 (Forall_forall _ _) Hal p Hp H4) as Hp_al.
  destruct p as [[| v | hi lo] bits]; cbn [netip.Is4 netip.Addr_ netip.Bits] in *;
    try discriminate.
  destruct (Z.le_gt_cases 24 bits) as [Hge|Hlt].
  - rewrite splitToBlocks_ge24 in Hs by assumption. injection Hs as <-.
    apply list_elem_of_singleton in Hb as ->. unfold aligned24. cbn [netip.Addr_ addr4].
    change (2 ^ 32) with 4294967296. Z.div_mod_to_equations. lia.
  - specialize (Hp_al ltac:(lia)). unfold aligned24 in Hp_al. cbn [netip.Addr_ addr4] in Hp_al.
    unfold splitToBlocks in Hs. cbn [netip.Bits netip.Addr_] in Hs.
    destruct (Z.leb_spec 24 bits); [lia|]. cbv zeta in Hs.
    destruct (shl1 (24 - bits) <? 0); [discriminate|].
    rewrite ipToInt_Addr4 in Hs.
    assert (Hbase : (v mod 2 ^ 32) mod 256 = 0).
    { change (2 ^ 32) with 4294967296. Z.div_mod_to_equations. lia. }
    exact (proj1 (Forall_forall _ _) (splitLoop_aligned _ _ _ Hs Hbase) b Hb).
Qed.

Lemma Masked_aligned_block (b : netip.Prefix) :
  isBlock24 b -> aligned24 b -> netip.Masked b = b.
Proof.
  intros (a & -> & Ha) Hal. unfold aligned24 in Hal. cbn [netip.Addr_ addr4] in Hal.
  rewrite Masked_Addr4 by lia. do 2 f_equal.
  change (2 ^ (32 - 24)) with 256. Z.div_mod_to_equations. lia.
Qed.

(** C3, as amended: for every input list, the list [convertToIPv4Blocks]
    produces has no duplicate entries, every element is an IPv4 prefix of
    length exactly 24, and the list is sorted by [prefixCompare] (strictly,
    as its elements differ); repeated or overlapping source prefixes make no
    difference. When the IPv4 prefixes of the input that are shorter than
    /24 have a zero last octet (as network addresses have), the list has no
    duplicate networks either. A list is produced whenever no split runs
    past 2^32 ([splitFits]). *)
Theorem convertToIPv4Blocks_spec (prefixes : list netip.Prefix) :
  (Forall splitFits prefixes -> is_Some (convertToIPv4Blocks prefixes))
  /\ (forall out, convertToIPv4Blocks prefixes = Some out ->
        NoDup out
        /\ Forall (fun b => netip.Bits b = 24 /\ netip.Is4 (netip.Addr_ b) = true) out
        /\ StronglySorted (cmpLe prefixCompare) out
        /\ StronglySorted (fun a b => prefixCompare a b < 0) out
        /\ (Forall alignedSource prefixes -> distinctNetworks out)).
Proof.
  split.
  - intros Hfit. unfold convertToIPv4Blocks.
    destruct (length prefixes =? 0)%nat; [eauto|].
    destruct (collectBlocks_fits prefixes ∅ Hfit) as [S1 ->].
    cbn [mbind option_bind]. eauto.
  - intros out Hout.
    destruct (convertToIPv4Blocks_facts _ _ Hout) as (Hnd & Hblk & Hsorted & _).
    split; [assumption|]. split; [|split; [assumption|split]].
    + eapply Forall_impl; [exact Hblk|]. intros b (a & -> & _). split; reflexivity.
    + apply sorted_NoDup_strict; assumption.
    + intros Hal. pose proof (aligned_sources_blocks _ _ Hal Hout) as Halo.
      unfold distinctNetworks.
      replace (netip.Masked <$> out) with out; [assumption|].
      clear -Hblk Halo. induction out as [|b out IH]; [reflexivity|].
      apply Forall_cons in Hblk as [Hb Hblk]. apply Forall_cons in Halo as [Ha Halo].
      cbn [fmap list_fmap]. rewrite (Masked_aligned_block b Hb Ha). f_equal.
      apply IH; assumption.
Qed.

(** C3 fails as stated: for 10.0.1.5/23 and 10.0.2.0/24 the output is
    10.0.1.5/24, 10.0.2.0/24, 10.0.2.5/24, which holds the network
    10.0.2.0/24 twice. *)
Lemma convertToIPv4Blocks_duplicate_network :
  ~ normalizedOutput [p_10_0_1_5_slash23; p_10_0_2_0_slash24].
Proof.
  intros H. destruct (H _ eq_refl) as [Hd _]. vm_compute in Hd.
  apply NoDup_cons in Hd as [_ Hd]. apply NoDup_cons in Hd as [Hd _].
  apply Hd. left.
Qed.

Lemma convertToIPv4Blocks_spec_witness :
  distinctNetworks [netip.mkPrefix (netip.Addr4 167772160) 24;
                    netip.mkPrefix (netip.Addr4 167772416) 24].
Proof.
  refine (proj2 (proj2 (proj2 (proj2
            (proj2 (convertToIPv4Blocks_spec
                      [netip.mkPrefix (netip.Addr4 167772160) 23;
                       netip.mkPrefix (netip.Addr4 167772416) 24;
                       netip.mkPrefix (netip.Addr4 167772160) 23;
                       netip.mkPrefix (netip.Addr4 167772493) 30]) _ _)))) _).
  - vm_compute. reflexivity.
  - repeat constructor; intros ? ?; try (cbn in *; lia); reflexivity.
Defined.

Lemma splitToBlocks_aligned_block (b : netip.Prefix) :
  isBlock24 b -> aligned24 b -> splitToBlocks b = Some [b].
Proof.
  intros (a & -> & Ha) Hal. unfold aligned24 in Hal. cbn [netip.Addr_ addr4] in Hal.
  rewrite splitToBlocks_ge24 by lia. rewrite Z.mod_small by lia. rewrite Hal, Z.sub_0_r.
  reflexivity.
Qed.

(** C9, as amended: for every output of [convertToIPv4Blocks] whose blocks
    all have a zero last octet, applying [convertToIPv4Blocks] again yields
    the identical list. *)
Theorem convertToIPv4Blocks_idempotent (prefixes out : list netip.Prefix) :
  convertToIPv4Blocks prefixes = Some out ->
  Forall aligned24 out ->
  convertToIPv4Blocks out = Some out.
Proof.
  intros Hout Hal.
  destruct (convertToIPv4Blocks_facts _ _ Hout) as (Hnd & Hblk & Hsorted & _).
  unfold convertToIPv4Blocks. destruct out as [|b0 out'] eqn:Ho; [reflexivity|].
  rewrite <- Ho in *. replace (length out =? 0)%nat with false by (subst; reflexivity).
  assert (Hfit : is_Some (collectBlocks out ∅)).
  { clear -Hblk Hal. generalize (∅ : gset netip.Prefix).
    induction out as [|b l IH]; intros S0; cbn [collectBlocks]; [eauto|].
    apply Forall_cons in Hblk as [Hb Hblk]. apply Forall_cons in Hal as [Ha Hal].
    destruct Hb as (a & -> & Hr). cbn [netip.Addr_ netip.Is4 negb].
    rewrite (splitToBlocks_aligned_block (netip.mkPrefix (netip.Addr4 a) 24));
      [|eexists; eauto|assumption].
    cbn [mbind option_bind]. apply IH; assumption. }
  destruct Hfit as [S1 Hc]. rewrite Hc. cbn [mbind option_bind]. f_equal.
  apply SortFunc_unique; [|assumption].
  apply NoDup_Permutation; [assumption|apply NoDup_elements|].
  intros b. rewrite elem_of_elements, (collectBlocks_elem _ _ _ Hc b). split.
  - intros Hb. right. exists b, [b]. split; [assumption|].
    pose proof (proj1 (Forall_forall _ _) Hblk b Hb) as Hbb.
    pose proof (proj1 (Forall_forall _ _) Hal b Hb) as Hab.
    split; [destruct Hbb as (a & -> & _); reflexivity|].
    split; [apply splitToBlocks_aligned_block; assumption|]. left.
  - intros [Hb|(q & bs & Hq & H4 & Hs & Hb)]; [set_solver|].
    pose proof (proj1 (Forall_forall _ _) Hblk q Hq) as Hbq.
    pose proof (proj1 (Forall_forall _ _) Hal q Hq) as Haq.
    rewrite (splitToBlocks_aligned_block q Hbq Haq) in Hs. injection Hs as <-.
    apply list_elem_of_singleton in Hb as ->. assumption.
Qed.

(** C9 fails as stated: the output for 10.0.1.5/23 is 10.0.1.5/24,
    10.0.2.5/24, and normalizing that gives 10.0.1.0/24, 10.0.2.0/24. *)
Lemma convertToIPv4Blocks_not_idempotent : ~ reNormalizes [p_10_0_1_5_slash23].
Proof.
  intros H. specialize (H _ eq_refl). vm_compute in H. discriminate H.
Qed.

Lemma convertToIPv4Blocks_idempotent_witness :
  convertToIPv4Blocks [netip.mkPrefix (netip.Addr4 167772160) 24;
                       netip.mkPrefix (netip.Addr4 167772416) 24]
  = Some [netip.mkPrefix (netip.Addr4 167772160) 24;
          netip.mkPrefix (netip.Addr4 167772416) 24].
Proof.
  apply (convertToIPv4Blocks_idempotent [netip.mkPrefix (netip.Addr4 167772160) 23]).
  - vm_compute. reflexivity.
  - repeat constructor.
Defined.

Lemma blocksFrom_aligned (base : Z) (n : nat) :
  base mod 256 = 0 -> Forall aligned24 (blocksFrom base n).
Proof.
  intros Hb. apply Forall_forall. intros b Hin.
  apply elem_of_blocksFrom in Hin as (i & _ & ->).
  unfold aligned24. cbn [netip.Addr_ addr4].
  Z.div_mod_to_equations. lia.
Qed.

(** X17: when every IPv4 source prefix shorter than /24 has a zero last
    octet, every block of the output has one. *)
Lemma convertToIPv4Blocks_aligned (prefixes out : list netip.Prefix) :
  Forall (fun p => netip.Is4 (netip.Addr_ p) = true -> -1 <= netip.Bits p < 24 ->
                   aligned24 p) prefixes ->
  Forall (fun p => -1 <= netip.Bits p) prefixes ->
  convertToIPv4Blocks prefixes = Some out ->
  Forall aligned24 out.
Proof.
  intros Hal Hbits Hout.
  destruct (convertToIPv4Blocks_facts _ _ Hout) as (_ & _ & _ & Hmem).
  apply Forall_forall. intros b Hb. apply Hmem in Hb as (p & bs & Hp & H4 & Hs & Hb).
  pose proof (proj1 (Forall_forall _ _) Hal p Hp H4) as Hp_al.
  pose proof (proj1 (Forall_forall _ _) Hbits p Hp) as Hp_bits.
  destruct p as [[| v | hi lo] bits]; cbn [netip.Is4 netip.Addr_ netip.Bits] in *;
    try discriminate.
  destruct (Z.le_gt_cases 24 bits) as [Hge|Hlt].
  - rewrite splitToBlocks_ge24 in Hs by assumption. injection Hs as <-.
    apply list_elem_of_singleton in Hb as ->. unfold aligned24. cbn [netip.Addr_ addr4].
    change (2 ^ 32) with 4294967296. Z.div_mod_to_equations. lia.
  - specialize (Hp_al ltac:(lia)). unfold aligned24 in Hp_al. cbn [netip.Addr_ addr4] in Hp_al.
    unfold splitToBlocks in Hs. cbn [netip.Bits netip.Addr_] in Hs.
    destruct (Z.leb_spec 24 bits); [lia|].
    rewrite shl1_pow in Hs by lia.
    assert (0 < 2 ^ (24 - bits)) by (apply Z.pow_pos_nonneg; lia).
    destruct (Z.ltb_spec (2 ^ (24 - bits)) 0); [lia|].
    rewrite ipToInt_Addr4 in Hs.
    assert (Hbase : (v mod 2 ^ 32) mod 256 = 0).
    { change (2 ^ 32) with 4294967296. Z.div_mod_to_equations. lia. }
    assert (Hall : Forall aligned24 bs).
    { clear -Hs Hbase. revert Hs Hbase. generalize (v mod 2 ^ 32) as base.
      generalize (Z.to_nat (2 ^ (24 - bits))) as n. intros n. revert bs.
      induction n as [|n IH]; intros bs base; cbn [splitLoop].
      - intros [= <-] _. constructor.
      - destruct (intToIP base) as [ip|] eqn:Hip; [|discriminate].
        cbn [mbind option_bind].
        destruct (splitLoop n (base + 256) 256) as [rest|] eqn:Hrest; [|discriminate].
        cbn [mbind option_bind]. intros [= <-] Hb0.
        apply intToIP_Some in Hip as [-> Hlt]. constructor.
        + unfold aligned24. cbn [netip.Addr_ addr4 netip.PrefixFrom].
          rewrite PrefixFrom_Addr4_24. cbn [netip.Addr_ addr4].
          destruct (Z.abs_spec base) as [[_ ->]|[_ ->]]; [assumption|].
          Z.div_mod_to_equations. lia.
        + apply (IH _ _ Hrest). Z.div_mod_to_equations. lia. }
    apply (proj1 (Forall_forall _ _) Hall b Hb).
Qed.

(** ** Strings *)































Lemma Split_no_sep (f : list ascii) (sep : ascii) : sep ∉ f -> Split f sep = [f].
Proof.
  induction f as [|c f IH]; intros Hn; [reflexivity|]. cbn [Split].
  rewrite bool_decide_eq_false_2 by (intros ->; apply Hn; left).
  rewrite IH by (intros H; apply Hn; right; assumption). reflexivity.
Qed.

Lemma Split_app_sep (f t : list ascii) (sep : ascii) :
  sep ∉ f -> Split (f ++ sep :: t) sep = f :: Split t sep.
Proof.
  induction f as [|c f IH]; intros Hn; cbn [app Split].
  - rewrite bool_decide_eq_true_2 by reflexivity. reflexivity.
  - rewrite bool_decide_eq_false_2 by (intros ->; apply Hn; left).
    rewrite IH by (intros H; apply Hn; right; assumption). reflexivity.
Qed.

Lemma Split_Join (fields : list (list ascii)) (sep : ascii) :
  fields <> [] -> Forall (fun f => sep ∉ f) fields ->
  Split (Join fields sep) sep = fields.
Proof.
  induction fields as [|f fs IH]; intros Hne Hall; [congruence|].
  apply Forall_cons in Hall as [Hf Hfs]. destruct fs as [|g fs].
  - cbn [Join]. apply Split_no_sep. assumption.
  - change (Join (f :: g :: fs) sep) with (f ++ sep :: Join (g :: fs) sep).
    rewrite Split_app_sep by assumption. rewrite IH by (auto; discriminate). reflexivity.
Qed.

(** ** The delegated-file parser *)



Lemma parseStep_app (records : list DelegatedRecord) (text : list ascii) :
  parseStep records text = records ++ option_list (lineRecord text).
Proof.
  unfold lineRecord, parseStep. cbv zeta.
  destruct (_ || _); [rewrite app_nil_r; reflexivity|].
  destruct (_ || _); [rewrite app_nil_r; reflexivity|].
  destruct (parseDelegatedRecord _); [rewrite app_nil_r; reflexivity|reflexivity].
Qed.

Lemma parse_fold (lines : list (list ascii)) (records : list DelegatedRecord) :
  fold_left parseStep lines records = records ++ omap lineRecord lines.
Proof.
  revert records. induction lines as [|line lines IH]; intros records; cbn [fold_left omap list_omap].
  - rewrite app_nil_r. reflexivity.
  - rewrite IH, parseStep_app, <- app_assoc. f_equal.
    destruct (lineRecord line); reflexivity.
Qed.

(** ** Strings: what [TrimSpace] returns *)









(** ** The scanner *)





Lemma textOf_app (lines lines' : list (list ascii)) :
  textOf (lines ++ lines') = textOf lines ++ textOf lines'.
Proof. unfold textOf. apply bind_app. Qed.





(** ** The delegated-file parser: files and records *)










(** ** The ASN resolver: duplicates *)

(** C7 fails as stated: the list [FetchASNsForCountry] returns is sorted
    but not free of duplicates: for the registry file [overlappingFile], in
    which ASN 101 is covered by two records of IR, the result is 100, 101,
    101. *)
Lemma FetchASNsForCountry_keeps_duplicates :
  FetchASNsForCountry (fun _ => inr (mkResponse 200 overlappingFile)) (str "IR")
  = inr [100; 101; 101]
  /\ ~ NoDup [100; 101; 101].
Proof.
  split; [vm_compute; reflexivity|].
  intros H. apply NoDup_cons in H as [_ H]. apply NoDup_cons in H as [H _].
  apply H. left.
Qed.

(** ** The ASN resolver: what is extracted *)

Lemma isValidPublicASN_range (a : Z) :
  isValidPublicASN a = true -> 1 <= a <= 4199999999.
Proof. intros H. apply isValidPublicASN_true in H. lia. Qed.

Lemma parseDigits_nonneg (ds : list ascii) (n v : Z) :
  0 <= n -> parseDigits ds n = Some v -> 0 <= v.
Proof.
  revert n. induction ds as [|ch ds IH]; intros n Hn; cbn [parseDigits].
  - intros [= <-]. assumption.
  - unfold digitVal. cbv zeta.
    match goal with |- context [if ?b then _ else _] => destruct b eqn:Hd end;
      [|discriminate].
    cbn [mbind option_bind].
    apply andb_true_iff in Hd as [Hd _]. apply Z.leb_le in Hd.
    apply IH. lia.
Qed.

(** [Atoi] yields a 64-bit integer. *)
Lemma Atoi_range (s : list ascii) (v : Z) :
  Atoi s = Some v -> - 2 ^ 63 <= v < 2 ^ 63.
Proof.
  unfold Atoi. destruct s as [|c r]; [discriminate|]. cbv zeta.
  match goal with |- context [match ?ds with [] => _ | _ :: _ => _ end] =>
    destruct ds; [discriminate|] end.
  match goal with |- context [parseDigits ?ds 0] =>
    destruct (parseDigits ds 0) as [n|]; [|discriminate] end.
  cbn [mbind option_bind].
  match goal with |- context [if ?b then Some _ else None] => destruct b eqn:Hr end;
    [|discriminate].
  intros [= <-].
  apply andb_true_iff in Hr as [H1 H2]. apply Z.leb_le in H1. apply Z.ltb_lt in H2. lia.
Qed.

Lemma expandRange_elem (n : nat) (i startASN : Z) (asns : list Z) (a : Z) :
  a ∈ expandRange n i startASN asns <->
  a ∈ asns
  \/ exists k : nat, (k < n)%nat /\ a = wrap64 (startASN + (i + Z.of_nat k))
                     /\ isValidPublicASN a = true.
Proof.
  revert i asns. induction n as [|n IH]; intros i asns; cbn [expandRange].
  - split; [auto|]. intros [H|(k & Hk & _)]; [assumption|lia].
  - rewrite IH. cbv zeta.
    destruct (isValidPublicASN (wrap64 (startASN + i))) eqn:Hv0; split.
    + intros [H|(k & Hk & -> & Hv)].
      * apply elem_of_app in H as [H|H]; [auto|].
        apply list_elem_of_singleton in H as ->. right. exists 0%nat.
        split; [lia|]. rewrite Z.add_0_r. auto.
      * right. exists (S k). split; [lia|].
        replace (i + Z.of_nat (S k)) with (i + 1 + Z.of_nat k) by lia. auto.
    + intros [H|(k & Hk & -> & Hv)].
      * left. apply elem_of_app. auto.
      * destruct k as [|k].
        -- left. rewrite Z.add_0_r in *. apply elem_of_app. right. left.
        -- right. exists k. split; [lia|].
           replace (i + 1 + Z.of_nat k) with (i + Z.of_nat (S k)) by lia. auto.
    + intros [H|(k & Hk & -> & Hv)]; [auto|].
      right. exists (S k). split; [lia|].
      replace (i + Z.of_nat (S k)) with (i + 1 + Z.of_nat k) by lia. auto.
    + intros [H|(k & Hk & -> & Hv)]; [auto|].
      destruct k as [|k].
      * rewrite Z.add_0_r in Hv. congruence.
      * right. exists k. split; [lia|].
        replace (i + 1 + Z.of_nat k) with (i + Z.of_nat (S k)) by lia. auto.
Qed.

(** On a valid public ASN the 64-bit addition did not wrap. *)
Lemma expanded_in_range (startASN count a : Z) :
  - 2 ^ 63 <= startASN < 2 ^ 63 -> - 2 ^ 63 <= count < 2 ^ 63 ->
  (exists k : nat, (k < Z.to_nat count)%nat /\ a = wrap64 (startASN + (0 + Z.of_nat k))
                   /\ isValidPublicASN a = true)
  <-> startASN <= a < startASN + count /\ isValidPublicASN a = true.
Proof.
  intros Hs Hc. split.
  - intros (k & Hk & Ha & Hv). split; [|assumption].
    apply isValidPublicASN_range in Hv.
    assert (Hw : wrap64 (startASN + (0 + Z.of_nat k)) = startASN + Z.of_nat k
                 \/ wrap64 (startASN + (0 + Z.of_nat k)) < 0).
    { unfold wrap64. change (2 ^ 63) with 9223372036854775808 in *.
      change (2 ^ 64) with 18446744073709551616.
      Z.div_mod_to_equations. lia. }
    lia.
  - intros [Hr Hv]. exists (Z.to_nat (a - startASN)). split; [lia|]. split; [|assumption].
    rewrite Z2Nat.id by lia. replace (startASN + (0 + (a - startASN))) with a by lia.
    apply isValidPublicASN_range in Hv. symmetry. apply wrap64_small.
    change (2 ^ 63) with 9223372036854775808. lia.
Qed.

Lemma extractStep_elem (countryCode : list ascii) (asns : list Z)
  (record : DelegatedRecord) (a : Z) :
  a ∈ extractStep countryCode asns record <->
  a ∈ asns
  \/ exists startASN count,
       selectedFor countryCode record
       /\ Atoi (Start record) = Some startASN /\ Atoi (Value record) = Some count
       /\ startASN <= a < startASN + count /\ isValidPublicASN a = true.
Proof.
  unfold extractStep, selectedFor.
  destruct (bool_decide_reflect (Type_ record = str "asn")) as [Ht|Ht]; cbn [negb orb];
    [|split; [auto|intros [H|(s & c & (H & _) & _)]; [assumption|contradiction]]].
  destruct (bool_decide_reflect (CC record = countryCode)) as [Hc|Hc]; cbn [negb orb];
    [|split; [auto|intros [H|(s & c & (_ & H & _) & _)]; [assumption|contradiction]]].
  destruct (bool_decide_reflect (Status record = str "reserved")) as [Hr|Hr]; cbn [orb];
    [split; [auto|intros [H|(s & c & (_ & _ & H & _) & _)]; [assumption|contradiction]]|].
  destruct (bool_decide_reflect (Status record = str "available")) as [Ha|Ha]; cbn [orb];
    [split; [auto|intros [H|(s & c & (_ & _ & _ & H) & _)]; [assumption|contradiction]]|].
  destruct (Atoi (Start record)) as [startASN|] eqn:Hs;
    [|split; [auto|intros [H|(s & c & _ & H & _)]; [assumption|discriminate]]].
  destruct (Atoi (Value record)) as [count|] eqn:Hv;
    [|split; [auto|intros [H|(s & c & _ & _ & H & _)]; [assumption|discriminate]]].
  rewrite expandRange_elem.
  rewrite (expanded_in_range startASN count a (Atoi_range _ _ Hs) (Atoi_range _ _ Hv)).
  split.
  - intros [H|H]; [auto|]. right. exists startASN, count. repeat split; auto; tauto.
  - intros [H|(s & c & _ & [= <-] & [= <-] & H)]; auto.
Qed.

Lemma extractASNs_elem (records : list DelegatedRecord)
  (countryCode : list ascii) (a : Z) :
  a ∈ extractASNsForCountry records countryCode <->
  exists record startASN count,
    record ∈ records /\ selectedFor countryCode record
    /\ Atoi (Start record) = Some startASN /\ Atoi (Value record) = Some count
    /\ startASN <= a < startASN + count /\ isValidPublicASN a = true.
Proof.
  unfold extractASNsForCountry.
  assert (H : forall asns,
             a ∈ fold_left (extractStep countryCode) records asns <->
             a ∈ asns \/ exists record startASN count,
               record ∈ records /\ selectedFor countryCode record
               /\ Atoi (Start record) = Some startASN /\ Atoi (Value record) = Some count
               /\ startASN <= a < startASN + count /\ isValidPublicASN a = true).
  { induction records as [|r rs IH]; intros asns; cbn [fold_left].
    - split; [auto|]. intros [H|(r & _ & _ & Hr & _)]; [assumption|inversion Hr].
    - rewrite IH, extractStep_elem. split.
      + intros [[H|(s & c & Hrest)]|(r' & s & c & Hr' & Hrest)].
        * auto.
        * right. exists r, s, c. split; [left|assumption].
        * right. exists r', s, c. split; [right; assumption|assumption].
      + intros [H|(r' & s & c & Hr' & Hrest)]; [auto|].
        apply elem_of_cons in Hr' as [->|Hr'].
        * left. right. exists s, c. assumption.
        * right. exists r', s, c. auto. }
  rewrite H. split; [|auto]. intros [Hnil|Hex]; [inversion Hnil|assumption].
Qed.

(** X1: [extractASNsForCountry] returns exactly the valid public ASNs of
    the ranges [start, start+count) of the records it selects: type [asn],
    the country code, a status other than [reserved] and [available], and
    numeric start and count. The 64-bit addition never wraps onto a value
    that passes the filter. *)
Theorem extractASNsForCountry_elem (records : list DelegatedRecord)
  (countryCode : list ascii) (a : Z) :
  a ∈ extractASNsForCountry records countryCode <->
  exists record startASN count,
    record ∈ records /\ selectedFor countryCode record
    /\ Atoi (Start record) = Some startASN /\ Atoi (Value record) = Some count
    /\ startASN <= a < startASN + count /\ isValidPublicASN a = true.
Proof. apply extractASNs_elem. Qed.

(** ** The ASN resolver: the result and the failures *)

Lemma sortInts_sorted (l : list Z) : StronglySorted Z.le (sortInts l).
Proof. apply StronglySorted_merge_sort; apply _. Qed.

Lemma sortInts_Permutation (l : list Z) : sortInts l ≡ₚ l.
Proof. apply merge_sort_Permutation. Qed.

Lemma CountryToRIR_lookup (countryCode : list ascii) :
  CountryToRIR !! countryCode =
  if decide (countryCode = str "IR") then Some RIPE_NCC
  else if decide (countryCode = str "CN") then Some APNIC else None.
Proof.
  unfold CountryToRIR. rewrite lookup_insert.
  destruct (decide (str "IR" = countryCode)) as [<-|Hne].
  - rewrite decide_True by reflexivity. reflexivity.
  - rewrite decide_False by congruence. rewrite lookup_insert.
    destruct (decide (str "CN" = countryCode)) as [<-|Hne'].
    + rewrite decide_True by reflexivity. reflexivity.
    + rewrite decide_False by congruence. apply lookup_empty.
Qed.

(** X2: when [FetchASNsForCountry] succeeds, the country is in the table,
    the registry answered 200 and its file was read to the end, and the list
    returned is the extracted ASNs rearranged in ascending order, each a
    valid public ASN. *)
Theorem FetchASNsForCountry_result (httpGet : list ascii -> error + Response)
  (countryCode : list ascii) (asns : list Z) :
  FetchASNsForCountry httpGet countryCode = inr asns ->
  StronglySorted Z.le asns
  /\ Forall (fun a => 1 <= a <= 64511 \/ 131072 <= a <= 4199999999) asns
  /\ exists rir resp records,
       CountryToRIR !! countryCode = Some rir
       /\ httpGet (URL rir) = inr resp /\ StatusCode resp = 200
       /\ parseDelegatedFile (Body resp) = inr records
       /\ asns ≡ₚ extractASNsForCountry records countryCode.
Proof.
  unfold FetchASNsForCountry, fetchDelegatedRecords.
  destruct (CountryToRIR !! countryCode) as [rir|]; [|discriminate].
  destruct (httpGet (URL rir)) as [err|resp] eqn:Hget; [discriminate|].
  destruct (Z.eqb_spec (StatusCode resp) 200) as [Hst|Hst]; cbn [negb]; [|discriminate].
  destruct (parseDelegatedFile (Body resp)) as [err|records] eqn:Hp; [discriminate|].
  intros [= <-]. split; [apply sortInts_sorted|]. split.
  - apply Forall_forall. intros a Ha. rewrite sortInts_Permutation in Ha.
    apply extractASNs_elem in Ha as (_ & _ & _ & _ & _ & _ & _ & _ & Hv).
    apply isValidPublicASN_true. assumption.
  - exists rir, resp, records. repeat split; try assumption; try reflexivity.
    apply sortInts_Permutation.
Qed.

Lemma FetchASNsForCountry_result_witness :
  StronglySorted Z.le [100; 101; 101]
  /\ Forall (fun a => 1 <= a <= 64511 \/ 131072 <= a <= 4199999999) [100; 101; 101]
  /\ exists rir resp records,
       CountryToRIR !! str "IR" = Some rir
       /\ (fun _ : list ascii => inr (mkResponse 200 overlappingFile) : error + Response)
            (URL rir) = inr resp
       /\ StatusCode resp = 200
       /\ parseDelegatedFile (Body resp) = inr records
       /\ [100; 101; 101] ≡ₚ extractASNsForCountry records (str "IR").
Proof.
  apply (FetchASNsForCountry_result
           (fun _ => inr (mkResponse 200 overlappingFile)) (str "IR") [100; 101; 101]).
  vm_compute. reflexivity.
Defined.

(** X3: [FetchASNsForCountry] fails exactly when the country is neither
    IR nor CN, or the HTTP request fails, or the status is not 200, or
    reading the body fails (a read error, or a line too long for the
    scanner); what the lines that are scanned hold never makes it fail. *)
Theorem FetchASNsForCountry_fails_iff (httpGet : list ascii -> error + Response)
  (countryCode : list ascii) :
  (exists e, FetchASNsForCountry httpGet countryCode = inl e) <->
  (countryCode <> str "IR" /\ countryCode <> str "CN")
  \/ exists rir, CountryToRIR !! countryCode = Some rir
       /\ ((exists e, httpGet (URL rir) = inl e)
           \/ exists resp, httpGet (URL rir) = inr resp
                /\ (StatusCode resp <> 200 \/ exists e, scanErr (Body resp) = Some e)).
Proof.
  assert (Hsup : CountryToRIR !! countryCode = None <->
                 countryCode <> str "IR" /\ countryCode <> str "CN").
  { rewrite CountryToRIR_lookup. repeat case_decide; split; intros; try discriminate;
      try tauto; auto. }
  unfold FetchASNsForCountry, fetchDelegatedRecords, parseDelegatedFile.
  destruct (CountryToRIR !! countryCode) as [rir|] eqn:Hlook.
  2:{ split; [intros _; left; apply Hsup; reflexivity|eauto]. }
  assert (Hno : ~ (countryCode <> str "IR" /\ countryCode <> str "CN")).
  { intros H. apply Hsup in H. discriminate. }
  destruct (httpGet (URL rir)) as [err|resp] eqn:Hget.
  { split; [intros _; right; exists rir; eauto|eauto]. }
  destruct (Z.eqb_spec (StatusCode resp) 200) as [Hst|Hst]; cbn [negb].
  2:{ split; [intros _; right; exists rir; split; [reflexivity|]; right;
              exists resp; auto|eauto]. }
  destruct (scanErr (Body resp)) as [e|] eqn:Hscan.
  { split; [intros _; right; exists rir; split; [reflexivity|]; right;
            exists resp; eauto|eauto]. }
  split; [intros [e He]; discriminate|].
  intros [H|(r & [= <-] & [[e He]|(resp' & Hr & [H|[e He]])])].
  - contradiction.
  - congruence.
  - congruence.
  - congruence.
Qed.

(** ** Addresses as integers *)

(** X4: [intToIP] and [ipToInt] are inverse to each other on 32-bit
    values, and [intToIP] panics from 2^32 on. *)
Theorem ipToInt_intToIP_roundtrip :
  (forall v, 0 <= v < 2 ^ 32 -> intToIP (ipToInt (netip.Addr4 v)) = Some (netip.Addr4 v))
  /\ (forall n, 0 <= n < 2 ^ 32 -> ipToInt <$> intToIP n = Some n)
  /\ (forall n, 2 ^ 32 <= n -> intToIP n = None).
Proof.
  split; [|split].
  - intros v Hv. rewrite ipToInt_Addr4, Z.mod_small by lia. apply intToIP_fits. lia.
  - intros n Hn. rewrite intToIP_fits by lia. cbn [fmap option_fmap option_map].
    rewrite ipToInt_Addr4, Z.mod_small by lia. reflexivity.
  - apply intToIP_overflow.
Qed.

(** ** The split of a prefix shorter than /24, masked or not *)

(** X5: for an IPv4 prefix shorter than /24, masked or not,
    [splitToBlocks] returns the [2^(24-L)] blocks that start at the address
    as stored, 256 apart, when the last of them starts below 2^32, and
    panics otherwise. *)
Theorem splitToBlocks_short (v bits : Z) :
  0 <= v < 2 ^ 32 -> 0 <= bits < 24 ->
  splitToBlocks (netip.mkPrefix (netip.Addr4 v) bits)
  = if v + 256 * (2 ^ (24 - bits) - 1) <? 2 ^ 32
    then Some (blocksFrom v (Z.to_nat (2 ^ (24 - bits))))
    else None.
Proof.
  intros Hv Hb.
  assert (HK : 0 < 2 ^ (24 - bits)) by (apply Z.pow_pos_nonneg; lia).
  destruct (Z.ltb_spec (v + 256 * (2 ^ (24 - bits) - 1)) (2 ^ 32)) as [Hfit|Hov].
  - rewrite <- (Z.mod_small v (2 ^ 32)) at 2 by lia.
    apply splitToBlocks_lt24; [lia|]. rewrite Z.mod_small by lia. assumption.
  - unfold splitToBlocks. cbn [netip.Bits netip.Addr_].
    destruct (Z.leb_spec 24 bits); [lia|].
    rewrite shl1_pow by lia.
    destruct (Z.ltb_spec (2 ^ (24 - bits)) 0); [lia|].
    rewrite ipToInt_Addr4, Z.mod_small by lia.
    apply splitLoop_overflow; [lia|].
    exists (Z.to_nat (2 ^ (24 - bits) - 1)). split; [lia|].
    rewrite Z2Nat.id by lia. assumption.
Qed.

Lemma splitToBlocks_short_witness :
  splitToBlocks (netip.mkPrefix (netip.Addr4 4294967045) 23)
  = if 4294967045 + 256 * (2 ^ (24 - 23) - 1) <? 2 ^ 32
    then Some (blocksFrom 4294967045 (Z.to_nat (2 ^ (24 - 23))))
    else None.
Proof. apply splitToBlocks_short; lia. Defined.

(** ** The normalizer: what the output holds, and what it does not depend on *)

(** X6: the output of [convertToIPv4Blocks] holds exactly the blocks of
    the splits of its IPv4 prefixes: none is lost and none is invented. *)
Theorem convertToIPv4Blocks_elem (prefixes out : list netip.Prefix) (b : netip.Prefix) :
  convertToIPv4Blocks prefixes = Some out ->
  b ∈ out <->
    exists p bs, p ∈ prefixes /\ netip.Is4 (netip.Addr_ p) = true
                 /\ splitToBlocks p = Some bs /\ b ∈ bs.
Proof. intros Hout. apply (convertToIPv4Blocks_facts _ _ Hout). Qed.

Lemma convertToIPv4Blocks_elem_witness :
  netip.mkPrefix (netip.Addr4 167772416) 24
    ∈ [netip.mkPrefix (netip.Addr4 167772160) 24;
       netip.mkPrefix (netip.Addr4 167772416) 24] <->
    exists p bs, p ∈ [netip.mkPrefix (netip.Addr4 167772160) 23]
                 /\ netip.Is4 (netip.Addr_ p) = true
                 /\ splitToBlocks p = Some bs
                 /\ netip.mkPrefix (netip.Addr4 167772416) 24 ∈ bs.
Proof.
  apply (convertToIPv4Blocks_elem [netip.mkPrefix (netip.Addr4 167772160) 23]).
  vm_compute. reflexivity.
Defined.

Lemma collectBlocks_None (prefixes : list netip.Prefix) (S0 : gset netip.Prefix) :
  collectBlocks prefixes S0 = None <->
  exists p, p ∈ prefixes /\ netip.Is4 (netip.Addr_ p) = true /\ splitToBlocks p = None.
Proof.
  revert S0. induction prefixes as [|p ps IH]; intros S0; cbn [collectBlocks].
  - split; [discriminate|]. intros (p & Hp & _). inversion Hp.
  - destruct (netip.Is4 (netip.Addr_ p)) eqn:H4; cbn [negb].
    + destruct (splitToBlocks p) as [bs|] eqn:Hs; cbn [mbind option_bind].
      * rewrite IH. split.
        -- intros (q & Hq & Hrest). exists q. split; [right; assumption|assumption].
        -- intros (q & Hq & H4q & Hsq). apply elem_of_cons in Hq as [->|Hq]; [congruence|].
           exists q. auto.
      * split; [|reflexivity]. intros _. exists p. split; [left|auto].
    + rewrite IH. split.
      * intros (q & Hq & Hrest). exists q. split; [right; assumption|assumption].
      * intros (q & Hq & H4q & Hsq). apply elem_of_cons in Hq as [->|Hq]; [congruence|].
        exists q. auto.
Qed.

(** The block set depends only on which prefixes occur in the input. *)
Lemma collectBlocks_same_elements (ps ps' : list netip.Prefix) :
  (forall p, p ∈ ps <-> p ∈ ps') -> collectBlocks ps ∅ = collectBlocks ps' ∅.
Proof.
  intros Hsame.
  destruct (collectBlocks ps ∅) as [S1|] eqn:H1, (collectBlocks ps' ∅) as [S2|] eqn:H2.
  - f_equal. apply set_eq. intros b.
    rewrite (collectBlocks_elem _ _ _ H1 b), (collectBlocks_elem _ _ _ H2 b).
    split; (intros [H|(p & bs & Hp & Hrest)]; [left; assumption|]);
      right; exists p, bs; split; try assumption; apply Hsame; assumption.
  - exfalso. apply collectBlocks_None in H2 as (p & Hp & H4 & Hs).
    assert (Hn : collectBlocks ps ∅ = None).
    { apply collectBlocks_None. exists p. split; [apply Hsame; assumption|auto]. }
    congruence.
  - exfalso. apply collectBlocks_None in H1 as (p & Hp & H4 & Hs).
    assert (Hn : collectBlocks ps' ∅ = None).
    { apply collectBlocks_None. exists p. split; [apply Hsame; assumption|auto]. }
    congruence.
  - reflexivity.
Qed.

(** X7: the order in which Go ranges over the block map does not show in
    the result, and neither do the order and the repetitions of the input:
    whatever arrangement of the keys the range yields, and for two inputs in
    which the same prefixes occur, the result is the same (the same list,
    or a panic in both cases). *)
Theorem convertToIPv4Blocks_same_elements
  (rangeOrder : list netip.Prefix -> list netip.Prefix) (ps ps' : list netip.Prefix) :
  (forall keys, rangeOrder keys ≡ₚ keys) ->
  (forall p, p ∈ ps <-> p ∈ ps') ->
  convertToIPv4BlocksRanging rangeOrder ps = convertToIPv4Blocks ps'.
Proof.
  intros Horder Hsame. unfold convertToIPv4BlocksRanging, convertToIPv4Blocks.
  rewrite (collectBlocks_same_elements ps ps' Hsame).
  destruct ps as [|p ps], ps' as [|p' ps']; [reflexivity| | |].
  - exfalso. assert (H : p' ∈ []) by (apply Hsame; left). inversion H.
  - exfalso. assert (H : p ∈ []) by (apply Hsame; left). inversion H.
  - cbn [length Nat.eqb].
    destruct (collectBlocks (p' :: ps') ∅) as [blockSet|]; [|reflexivity].
    cbn [mbind option_bind]. f_equal. apply SortFunc_unique.
    + rewrite SortFunc_Permutation. symmetry. apply Horder.
    + apply SortFunc_sorted.
Qed.

Lemma convertToIPv4Blocks_same_elements_witness :
  convertToIPv4BlocksRanging reverse
    [netip.mkPrefix (netip.Addr4 167772160) 23;
     netip.mkPrefix (netip.Addr4 167772416) 24]
  = convertToIPv4Blocks [netip.mkPrefix (netip.Addr4 167772416) 24;
                         netip.mkPrefix (netip.Addr4 167772160) 23;
                         netip.mkPrefix (netip.Addr4 167772416) 24].
Proof.
  apply convertToIPv4Blocks_same_elements.
  - intros keys. apply reverse_Permutation.
  - intros p. rewrite !elem_of_cons. rewrite !elem_of_nil. tauto.
Defined.

(** X8: prefixes that are not IPv4 are ignored by [convertToIPv4Blocks]. *)
Theorem convertToIPv4Blocks_ignores_non_IPv4 (prefixes : list netip.Prefix) :
  convertToIPv4Blocks prefixes
  = convertToIPv4Blocks (filter (fun p => netip.Is4 (netip.Addr_ p) = true) prefixes).
Proof.
  assert (Hc : forall S0,
             collectBlocks prefixes S0
             = collectBlocks (filter (fun p => netip.Is4 (netip.Addr_ p) = true) prefixes) S0).
  { induction prefixes as [|p ps IH]; intros S0; [reflexivity|].
    rewrite filter_cons. cbn [collectBlocks].
    destruct (netip.Is4 (netip.Addr_ p)) eqn:H4; cbn [negb].
    - rewrite decide_True by reflexivity. cbn [collectBlocks]. rewrite H4. cbn [negb].
      destruct (splitToBlocks p); cbn [mbind option_bind]; [apply IH|reflexivity].
    - rewrite decide_False by discriminate. apply IH. }
  unfold convertToIPv4Blocks. rewrite (Hc ∅).
  destruct prefixes as [|p ps]; [reflexivity|].
  destruct (filter _ (p :: ps)) as [|q qs]; reflexivity.
Qed.

(** ** The filter by ASN *)

#[global] Instance keptV4_dec (asns : list Z) (e : Prefix) : Decision (keptV4 asns e).
Proof. unfold keptV4. apply _. Defined.

#[global] Instance keptV6_dec (asns : list Z) (e : Prefix) : Decision (keptV6 asns e).
Proof. unfold keptV6. apply _. Defined.

Lemma asnSet_lookup (asns : list Z) (m0 : gmap Z bool) (k : Z) :
  fold_left (fun m asn => <[asn := true]> m) asns m0 !! k
  = if decide (k ∈ asns) then Some true else m0 !! k.
Proof.
  revert m0. induction asns as [|a asns IH]; intros m0; cbn [fold_left].
  - rewrite decide_False by (intros H; inversion H). reflexivity.
  - rewrite IH. destruct (decide (k ∈ asns)) as [Hin|Hnin].
    + rewrite decide_True by (right; assumption). reflexivity.
    + destruct (decide (k = a)) as [->|Hne].
      * rewrite decide_True by left. apply lookup_insert_eq.
      * rewrite decide_False by (intros H; apply elem_of_cons in H as [?|?]; auto).
        apply lookup_insert_ne. congruence.
Qed.

Lemma filterByASN_eq (prefixes : list Prefix) (asns : list Z) :
  filterByASN prefixes asns
  = (SortFunc prefixCompare (CIDR <$> filter (keptV4 asns) prefixes),
     SortFunc prefixCompare (CIDR <$> filter (keptV6 asns) prefixes)).
Proof.
  unfold filterByASN. cbv zeta.
  set (asnSet := fold_left _ asns ∅).
  assert (Hset : forall k, default false (asnSet !! k) = bool_decide (k ∈ asns)).
  { intros k. unfold asnSet. rewrite asnSet_lookup, lookup_empty.
    destruct (decide (k ∈ asns)).
    - rewrite bool_decide_eq_true_2 by assumption. reflexivity.
    - rewrite bool_decide_eq_false_2 by assumption. reflexivity. }
  match goal with |- (let '(v4, v6) := fold_left ?f _ _ in _) = _ => set (step := f) end.
  assert (Hfold : forall a4 a6,
             fold_left step prefixes (a4, a6)
             = (a4 ++ (CIDR <$> filter (keptV4 asns) prefixes),
                a6 ++ (CIDR <$> filter (keptV6 asns) prefixes))).
  { induction prefixes as [|e es IH]; intros a4 a6; cbn [fold_left].
    - rewrite !filter_nil. cbn. rewrite !app_nil_r. reflexivity.
    - rewrite !filter_cons. unfold step at 2. cbv beta iota. rewrite Hset.
      assert (Hex : netip.Is4 (netip.Addr_ (CIDR e)) = true ->
                    netip.Is6 (netip.Addr_ (CIDR e)) = false)
        by (destruct (netip.Addr_ (CIDR e)); cbn; congruence).
      destruct (decide (ASN e ∈ asns)) as [Hin|Hnin].
      + rewrite bool_decide_eq_true_2 by assumption. cbn [negb].
        destruct (netip.Is4 (netip.Addr_ (CIDR e))) eqn:H4.
        * rewrite IH. rewrite (decide_True (P := keptV4 asns e)) by (split; assumption).
          rewrite (decide_False (P := keptV6 asns e))
            by (intros [_ H]; rewrite Hex in H by reflexivity; discriminate).
          rewrite fmap_cons, <- app_assoc. reflexivity.
        * rewrite (decide_False (P := keptV4 asns e))
            by (intros [_ H]; congruence).
          destruct (netip.Is6 (netip.Addr_ (CIDR e))) eqn:H6.
          -- rewrite IH. rewrite (decide_True (P := keptV6 asns e)) by (split; assumption).
             rewrite fmap_cons, <- app_assoc. reflexivity.
          -- rewrite IH. rewrite (decide_False (P := keptV6 asns e))
               by (intros [_ H]; congruence).
             reflexivity.
      + rewrite bool_decide_eq_false_2 by assumption. cbn [negb].
        rewrite IH. rewrite (decide_False (P := keptV4 asns e))
          by (intros [H _]; contradiction).
        rewrite (decide_False (P := keptV6 asns e)) by (intros [H _]; contradiction).
        reflexivity. }
  rewrite Hfold. reflexivity.
Qed.

(** X10: [filterByASN] returns, sorted by [prefixCompare], the CIDRs of
    the entries announced by one of the ASNs: IPv4 ones in the first list,
    IPv6 ones in the second, with their repetitions; entries of neither
    family are dropped. *)
Theorem filterByASN_spec (prefixes : list Prefix) (asns : list Z) :
  let '(v4, v6) := filterByASN prefixes asns in
  v4 ≡ₚ CIDR <$> filter (keptV4 asns) prefixes
  /\ StronglySorted (cmpLe prefixCompare) v4
  /\ v6 ≡ₚ CIDR <$> filter (keptV6 asns) prefixes
  /\ StronglySorted (cmpLe prefixCompare) v6.
Proof.
  rewrite filterByASN_eq.
  repeat split; try apply SortFunc_Permutation; apply SortFunc_sorted.
Qed.

(** X11: only the set of ASNs matters to [filterByASN]: order and
    repetitions in [asns] make no difference. *)
Theorem filterByASN_same_ASNs (prefixes : list Prefix) (asns asns' : list Z) :
  (forall a, a ∈ asns <-> a ∈ asns') ->
  filterByASN prefixes asns = filterByASN prefixes asns'.
Proof.
  intros Hsame. rewrite !filterByASN_eq.
  rewrite (list_filter_iff (keptV4 asns) (keptV4 asns')),
    (list_filter_iff (keptV6 asns) (keptV6 asns')); [reflexivity| |].
  - intros e. unfold keptV6. rewrite Hsame. reflexivity.
  - intros e. unfold keptV4. rewrite Hsame. reflexivity.
Qed.

Lemma filterByASN_same_ASNs_witness :
  filterByASN [mkBGP (netip.mkPrefix (netip.Addr4 167772160) 23) 101] [100; 101; 101]
  = filterByASN [mkBGP (netip.mkPrefix (netip.Addr4 167772160) 23) 101] [101; 100].
Proof.
  apply filterByASN_same_ASNs. intros a. rewrite !elem_of_cons, !elem_of_nil. tauto.
Defined.

(** ** The whole resolution for a list of ASNs *)

(** X12: a prefix set returned by [GetPrefixesForASNs] has a duplicate-free
    sorted IPv4 list of /24 blocks and a sorted IPv6 list; unless the ASN
    list was empty, the table was fetched, the IPv4 blocks are exactly the
    blocks of the table's IPv4 entries announced by the ASNs, and the IPv6
    prefixes exactly the table's IPv6 entries announced by them. *)
Theorem GetPrefixesForASNs_sound (net : nat -> error + list Prefix)
  (asns : list Z) (w w' : World) (ps : PrefixSet) :
  GetPrefixesForASNs net asns w = (Some (inr ps), w') ->
  NoDup (IPv4 ps)
  /\ Forall isBlock24 (IPv4 ps)
  /\ StronglySorted (cmpLe prefixCompare) (IPv4 ps)
  /\ StronglySorted (cmpLe prefixCompare) (IPv6 ps)
  /\ ((asns = [] /\ ps = mkPrefixSet [] [] /\ w' = w)
      \/ exists table,
           fetchWithRetrySimple net w = (inr table, w')
           /\ (forall b, b ∈ IPv4 ps <->
                 exists e bs, e ∈ table /\ keptV4 asns e
                              /\ splitToBlocks (CIDR e) = Some bs /\ b ∈ bs)
           /\ (forall p, p ∈ IPv6 ps <-> exists e, e ∈ table /\ keptV6 asns e /\ CIDR e = p)).
Proof.
  unfold GetPrefixesForASNs. destruct asns as [|a asns'] eqn:Hasns.
  { cbn. intros [= <- <-]. cbn [IPv4 IPv6].
    split; [constructor|]. split; [constructor|]. split; [constructor|].
    split; [constructor|]. left. auto. }
  rewrite <- Hasns. replace (length asns =? 0)%nat with false by (subst; reflexivity).
  unfold bind. destruct (fetchWithRetrySimple net w) as [[err|table] w1] eqn:Hfetch.
  { cbn. intros [= ]. }
  rewrite filterByASN_eq.
  destruct (convertToIPv4Blocks _) as [blocks|] eqn:Hconv; [|cbn; intros [=]].
  cbn [ret]. intros [= <- <-]. cbn [IPv4 IPv6].
  destruct (convertToIPv4Blocks_facts _ _ Hconv) as (Hnd & Hblk & Hsorted & Hmem).
  split; [assumption|]. split; [assumption|]. split; [assumption|].
  split; [apply SortFunc_sorted|].
  right. exists table. split; [reflexivity|]. split.
  - intros b. rewrite Hmem. split.
    + intros (p & bs & Hp & H4 & Hs & Hb).
      rewrite SortFunc_Permutation in Hp.
      apply list_elem_of_fmap in Hp as (e & -> & He).
      apply list_elem_of_filter in He as [Hk He]. exists e, bs. auto.
    + intros (e & bs & He & Hk & Hs & Hb). exists (CIDR e), bs.
      split; [|split; [apply Hk|auto]].
      rewrite SortFunc_Permutation. apply list_elem_of_fmap. exists e.
      split; [reflexivity|]. apply list_elem_of_filter. auto.
  - intros p. rewrite SortFunc_Permutation, list_elem_of_fmap. split.
    + intros (e & -> & He). apply list_elem_of_filter in He as [Hk He]. exists e. auto.
    + intros (e & He & Hk & <-). exists e. split; [reflexivity|].
      apply list_elem_of_filter. auto.
Qed.

Lemma GetPrefixesForASNs_sound_witness :
  let ps := mkPrefixSet [netip.mkPrefix (netip.Addr4 167772160) 24] [] in
  let net := fun _ : nat =>
    (inr [mkBGP (netip.mkPrefix (netip.Addr4 167772165) 28) 7] : error + list Prefix) in
  NoDup (IPv4 ps)
  /\ Forall isBlock24 (IPv4 ps)
  /\ StronglySorted (cmpLe prefixCompare) (IPv4 ps)
  /\ StronglySorted (cmpLe prefixCompare) (IPv6 ps)
  /\ (([7] = [] /\ ps = mkPrefixSet [] [] /\ mkWorld 1 [EvFetch] = mkWorld 0 [])
      \/ exists table,
           fetchWithRetrySimple net (mkWorld 0 []) = (inr table, mkWorld 1 [EvFetch])
           /\ (forall b, b ∈ IPv4 ps <->
                 exists e bs, e ∈ table /\ keptV4 [7] e
                              /\ splitToBlocks (CIDR e) = Some bs /\ b ∈ bs)
           /\ (forall p, p ∈ IPv6 ps <-> exists e, e ∈ table /\ keptV6 [7] e /\ CIDR e = p)).
Proof.
  cbv zeta.
  apply (GetPrefixesForASNs_sound
           (fun _ => inr [mkBGP (netip.mkPrefix (netip.Addr4 167772165) 28) 7])
           [7] (mkWorld 0 []) (mkWorld 1 [EvFetch])).
  vm_compute. reflexivity.
Defined.

(** X13: [GetPrefixesForASNs] returns an error exactly when the ASN list
    is not empty and the fetch with retries failed; the error wraps the
    fetch error, and no prefix set is returned with it. *)
Theorem GetPrefixesForASNs_error (net : nat -> error + list Prefix)
  (asns : list Z) (w w' : World) (e : error) :
  GetPrefixesForASNs net asns w = (Some (inl e), w') <->
  asns <> []
  /\ exists err, fetchWithRetrySimple net w = (inl err, w')
       /\ e = errWrap (str "failed to fetch BGP data: " ++ Error err) err.
Proof.
  unfold GetPrefixesForASNs. destruct asns as [|a asns'] eqn:Hasns.
  { cbn. split; [intros [=]|]. intros [H _]. contradiction. }
  rewrite <- Hasns. replace (length asns =? 0)%nat with false by (subst; reflexivity).
  unfold bind. destruct (fetchWithRetrySimple net w) as [[err|table] w1] eqn:Hfetch.
  - cbn [ret]. split.
    + intros [= <- <-]. split; [subst; discriminate|]. exists err. auto.
    + intros (_ & err' & [= <- <-] & ->). reflexivity.
  - destruct (filterByASN table asns) as [v4 v6].
    destruct (convertToIPv4Blocks v4); cbn [ret];
      (split; [intros [=]|intros (_ & err' & [=] & _)]).
Qed.

(** ** A delegated record line: fields in, fields out *)

(** X14: a record whose seven fields hold no '|', written out with '|'
    between the fields and any further fields after them, is read back by
    [parseDelegatedRecord] as the same record. *)
Theorem parseDelegatedRecord_Join (r : DelegatedRecord) (more : list (list ascii)) :
  Forall (fun f => "|"%char ∉ f)
         ([Registry r; CC r; Type_ r; Start r; Value r; Date r; Status r] ++ more) ->
  parseDelegatedRecord
    (Join ([Registry r; CC r; Type_ r; Start r; Value r; Date r; Status r] ++ more) "|"%char)
  = inr r.
Proof.
  intros Hall. unfold parseDelegatedRecord. cbv zeta.
  rewrite Split_Join by (assumption || discriminate).
  destruct r. reflexivity.
Qed.

Lemma parseDelegatedRecord_Join_witness :
  parseDelegatedRecord
    (Join ([str "ripencc"; str "IR"; str "asn"; str "12880"; str "1"; str "20110101";
            str "allocated"] ++ [str "opaque-id"]) "|"%char)
  = inr (mkRecord (str "ripencc") (str "IR") (str "asn") (str "12880") (str "1")
                  (str "20110101") (str "allocated")).
Proof.
  apply (parseDelegatedRecord_Join
           (mkRecord (str "ripencc") (str "IR") (str "asn") (str "12880") (str "1")
                     (str "20110101") (str "allocated")) [str "opaque-id"]).
  apply (bool_decide_unpack _). vm_compute. exact I.
Defined.

(** ** The two versions of the split *)

(** X15: the earlier [splitToBlocks] agrees with the current one below
    /24; it returns a /24 unchanged, which is the current result exactly
    when the last octet is zero; and it panics on every prefix longer than
    /24, which the current one aligns to its /24. *)
Theorem legacy_splitToBlocks_compare :
  (forall p, netip.Bits p < 24 -> legacy.splitToBlocks p = splitToBlocks p)
  /\ (forall p, netip.Bits p = 24 -> legacy.splitToBlocks p = Some [p])
  /\ (forall v, 0 <= v < 2 ^ 32 ->
        legacy.splitToBlocks (netip.mkPrefix (netip.Addr4 v) 24)
        = splitToBlocks (netip.mkPrefix (netip.Addr4 v) 24)
        <-> v mod 256 = 0)
  /\ (forall p, 24 < netip.Bits p -> legacy.splitToBlocks p = None)
  /\ (forall v bits, 24 < bits ->
        splitToBlocks (netip.mkPrefix (netip.Addr4 v) bits)
        = Some [netip.mkPrefix (netip.Addr4 (v mod 2 ^ 32 - v mod 256)) 24]).
Proof.
  split; [|split; [|split; [|split]]].
  - intros p Hb. unfold legacy.splitToBlocks, splitToBlocks. cbv zeta.
    destruct (Z.eqb_spec (netip.Bits p) 24); [lia|].
    destruct (Z.leb_spec 24 (netip.Bits p)); [lia|].
    destruct (Z.ltb_spec (24 - netip.Bits p) 0); [lia|]. reflexivity.
  - intros p Hb. unfold legacy.splitToBlocks. rewrite Hb. reflexivity.
  - intros v Hv. rewrite splitToBlocks_ge24 by lia. cbn. rewrite Z.mod_small by lia.
    split.
    + intros [= Heq]. lia.
    + intros ->. rewrite Z.sub_0_r. reflexivity.
  - intros p Hb. unfold legacy.splitToBlocks. cbv zeta.
    destruct (Z.eqb_spec (netip.Bits p) 24); [lia|].
    destruct (Z.ltb_spec (24 - netip.Bits p) 0); [reflexivity|lia].
  - intros v bits Hb. apply splitToBlocks_ge24. lia.
Qed.

(** ** Both countries at once *)

(** X16: [FetchIRAndCNASNs] succeeds exactly when both countries do, with
    the map of the two lists; a failure for IR is reported without regard
    to CN, and the error wraps the country's error. *)
Theorem FetchIRAndCNASNs_spec (httpGet : list ascii -> error + Response) :
  (forall m, FetchIRAndCNASNs httpGet = inr m <->
     exists ir cn, FetchASNsForCountry httpGet (str "IR") = inr ir
                   /\ FetchASNsForCountry httpGet (str "CN") = inr cn
                   /\ m = <[str "CN" := cn]> (<[str "IR" := ir]> ∅))
  /\ (forall e, FetchASNsForCountry httpGet (str "IR") = inl e ->
        FetchIRAndCNASNs httpGet
        = inl (errWrap (str "failed to fetch ASNs for IR: " ++ Error e) e))
  /\ (forall ir e, FetchASNsForCountry httpGet (str "IR") = inr ir ->
        FetchASNsForCountry httpGet (str "CN") = inl e ->
        FetchIRAndCNASNs httpGet
        = inl (errWrap (str "failed to fetch ASNs for CN: " ++ Error e) e)).
Proof.
  unfold FetchIRAndCNASNs. cbn [fetchCountries].
  destruct (FetchASNsForCountry httpGet (str "IR")) as [e1|ir];
    [|destruct (FetchASNsForCountry httpGet (str "CN")) as [e2|cn]].
  - split; [|split].
    + intros m. split; [intros [=]|intros (? & ? & [=] & _)].
    + intros e [= <-]. reflexivity.
    + intros ? ? [=].
  - split; [|split].
    + intros m. split; [intros [=]|intros (? & ? & _ & [=] & _)].
    + intros ? [=].
    + intros ? e _ [= <-]. reflexivity.
  - split; [|split].
    + intros m. split.
      * intros [= <-]. eauto.
      * intros (? & ? & [= <-] & [= <-] & ->). reflexivity.
    + intros ? [=].
    + intros ? ? _ [=].
Qed.

(** ** What the normalized blocks cover *)

Lemma Contains4_block (a x : Z) :
  netip.Contains4 (netip.mkPrefix (netip.Addr4 a) 24) x = true <-> x / 256 = a / 256.
Proof. rewrite Contains4_div by lia. reflexivity. Qed.

Lemma blocksFrom_cover (v bits x : Z) :
  0 <= v < 2 ^ 32 -> 0 <= bits < 24 ->
  netip.Masked (netip.mkPrefix (netip.Addr4 v) bits) = netip.mkPrefix (netip.Addr4 v) bits ->
  netip.Contains4 (netip.mkPrefix (netip.Addr4 v) bits) x = true
  <-> exists b, b ∈ blocksFrom v (Z.to_nat (2 ^ (24 - bits)))
                /\ netip.Contains4 b x = true.
Proof.
  intros Hv Hb HM.
  destruct (masked_range v bits Hv Hb HM) as (HK & Hk & Hm & Htop).
  set (K := 2 ^ (24 - bits)) in *.
  assert (Hq : v / 256 * 256 = v).
  { rewrite <- Hm at 2. rewrite <- Hm at 1.
    replace (v / (256 * K) * (256 * K)) with (v / (256 * K) * K * 256) by lia.
    rewrite Z.div_mul by lia. lia. }
  rewrite Contains4_div by lia. rewrite Hk, div_eq_iff by lia. rewrite Hm.
  pose proof (Z.mul_div_le x 256 ltac:(lia)).
  pose proof (Z.mul_succ_div_gt x 256 ltac:(lia)).
  split.
  - intros Hin. set (i := x / 256 - v / 256).
    assert (Hi : 0 <= i < K) by (unfold i; nia).
    exists (netip.mkPrefix (netip.Addr4 (v + 256 * Z.of_nat (Z.to_nat i))) 24). split.
    + apply elem_of_blocksFrom. exists (Z.to_nat i). split; [lia|reflexivity].
    + apply Contains4_block. rewrite Z2Nat.id by lia.
      rewrite (Z.mul_comm 256 i), Z.div_add by lia. unfold i. lia.
  - intros (b & Hbin & Hc). apply elem_of_blocksFrom in Hbin as (i & Hi & ->).
    apply Contains4_block in Hc.
    rewrite (Z.mul_comm 256 (Z.of_nat i)), Z.div_add in Hc by lia.
    assert (Z.of_nat i < K) by lia. nia.
Qed.

(** The blocks of one table entry cover what the entry, widened to /24,
    covers. *)
Lemma splitToBlocks_cover (p : netip.Prefix) (x : Z) :
  netip.Is4 (netip.Addr_ p) = true -> tableEntry p ->
  exists bs, splitToBlocks p = Some bs
    /\ (netip.Contains4 (widen24 p) x = true
        <-> exists b, b ∈ bs /\ netip.Contains4 b x = true).
Proof.
  intros H4 Ht. destruct (Ht H4) as (Hv & Hb & HM).
  destruct p as [[| v | hi lo] bits]; cbn [netip.Is4 netip.Addr_ netip.Bits addr4] in *;
    try discriminate.
  unfold widen24. cbn [netip.Addr_ netip.Bits].
  destruct (Z.le_gt_cases 24 bits) as [Hge|Hlt].
  - rewrite splitToBlocks_ge24 by assumption. eexists. split; [reflexivity|].
    rewrite Z.min_r by lia. rewrite Contains4_block. split.
    + intros Hx. eexists. split; [left|]. apply Contains4_block. rewrite Hx.
      rewrite Z.mod_small by lia. Z.div_mod_to_equations. lia.
    + intros (b & Hbin & Hc). apply list_elem_of_singleton in Hbin as ->.
      apply Contains4_block in Hc. rewrite Hc.
      rewrite Z.mod_small by lia. Z.div_mod_to_equations. lia.
  - specialize (HM Hlt).
    destruct (masked_range v bits Hv ltac:(lia) HM) as (HK & Hk & Hm & Htop).
    assert (Hs : splitToBlocks (netip.mkPrefix (netip.Addr4 v) bits)
                 = Some (blocksFrom v (Z.to_nat (2 ^ (24 - bits))))).
    { pose proof (splitToBlocks_lt24 v bits) as H. rewrite Z.mod_small in H by lia.
      apply H; lia. }
    rewrite Hs. eexists. split; [reflexivity|].
    rewrite Z.min_l by lia. apply blocksFrom_cover; [assumption|lia|assumption].
Qed.

(** X9: on table entries (network addresses for lengths below 24), an
    address lies in a block of the output exactly when it lies in one of
    the source prefixes widened to at most 24 bits. *)
Theorem convertToIPv4Blocks_covers (prefixes out : list netip.Prefix) (x : Z) :
  Forall tableEntry prefixes ->
  convertToIPv4Blocks prefixes = Some out ->
  (exists b, b ∈ out /\ netip.Contains4 b x = true)
  <-> (exists p, p ∈ prefixes /\ netip.Contains4 (widen24 p) x = true).
Proof.
  intros Hall Hout.
  destruct (convertToIPv4Blocks_facts _ _ Hout) as (_ & _ & _ & Hmem). split.
  - intros (b & Hb & Hc). apply Hmem in Hb as (p & bs & Hp & H4 & Hs & Hb).
    exists p. split; [assumption|].
    pose proof (proj1 (Forall_forall _ _) Hall p Hp) as Ht.
    destruct (splitToBlocks_cover p x H4 Ht) as (bs' & Hs' & Hcov).
    rewrite Hs in Hs'. injection Hs' as <-. apply Hcov. eauto.
  - intros (p & Hp & Hc).
    assert (H4 : netip.Is4 (netip.Addr_ p) = true).
    { unfold netip.Contains4, widen24 in Hc. cbn [netip.Addr_] in Hc.
      destruct (netip.Addr_ p); [discriminate|reflexivity|discriminate]. }
    pose proof (proj1 (Forall_forall _ _) Hall p Hp) as Ht.
    destruct (splitToBlocks_cover p x H4 Ht) as (bs & Hs & Hcov).
    apply Hcov in Hc as (b & Hb & Hc). exists b. split; [|assumption].
    apply Hmem. exists p, bs. auto.
Qed.

Lemma convertToIPv4Blocks_covers_witness :
  (exists b, b ∈ [netip.mkPrefix (netip.Addr4 167772160) 24;
                  netip.mkPrefix (netip.Addr4 167772416) 24]
             /\ netip.Contains4 b 167772500 = true)
  <-> (exists p, p ∈ [netip.mkPrefix (netip.Addr4 167772160) 23;
                      netip.mkPrefix (netip.Addr4 167772420) 30]
                 /\ netip.Contains4 (widen24 p) 167772500 = true).
Proof.
  apply (convertToIPv4Blocks_covers
           [netip.mkPrefix (netip.Addr4 167772160) 23;
            netip.mkPrefix (netip.Addr4 167772420) 30]).
  - repeat constructor; cbn; try lia; intros; try lia; reflexivity.
  - vm_compute. reflexivity.
Defined.

(** X18: [convertToIPv4Blocks] panics exactly when the split of one of
    its IPv4 prefixes does. *)
Theorem convertToIPv4Blocks_None (prefixes : list netip.Prefix) :
  convertToIPv4Blocks prefixes = None <->
  exists p, p ∈ prefixes /\ netip.Is4 (netip.Addr_ p) = true /\ splitToBlocks p = None.
Proof.
  rewrite <- (collectBlocks_None prefixes ∅). unfold convertToIPv4Blocks.
  destruct prefixes as [|p ps]; [split; discriminate|].
  cbn [length Nat.eqb].
  destruct (collectBlocks (p :: ps) ∅); cbn [mbind option_bind]; split;
    (discriminate || reflexivity).
Qed.

Lemma convertToIPv4Blocks_aligned_witness :
  Forall aligned24 [netip.mkPrefix (netip.Addr4 167772160) 24;
                    netip.mkPrefix (netip.Addr4 167772416) 24].
Proof.
  apply (convertToIPv4Blocks_aligned [netip.mkPrefix (netip.Addr4 167772160) 23]).
  - repeat constructor.
  - repeat constructor; cbn; lia.
  - vm_compute. reflexivity.
Defined.

(** ** The ASN resolver: the order of the records does not matter *)

Lemma expandRange_app (n : nat) (i startASN : Z) (asns : list Z) :
  expandRange n i startASN asns = asns ++ expandRange n i startASN [].
Proof.
  revert i asns. induction n as [|n IH]; intros i asns; cbn [expandRange].
  - rewrite app_nil_r. reflexivity.
  - cbv zeta. destruct (isValidPublicASN (wrap64 (startASN + i))).
    + rewrite IH. rewrite (IH _ ([] ++ _)). cbn [app]. rewrite <- app_assoc. reflexivity.
    + apply IH.
Qed.

Lemma extractStep_app (countryCode : list ascii) (asns : list Z) (record : DelegatedRecord) :
  extractStep countryCode asns record = asns ++ extractStep countryCode [] record.
Proof.
  unfold extractStep.
  destruct (_ || _); [rewrite app_nil_r; reflexivity|].
  destruct (_ || _); [rewrite app_nil_r; reflexivity|].
  destruct (Atoi (Start record)); [|rewrite app_nil_r; reflexivity].
  destruct (Atoi (Value record)); [|rewrite app_nil_r; reflexivity].
  apply expandRange_app.
Qed.

Lemma extractASNs_bind (records : list DelegatedRecord) (countryCode : list ascii) :
  extractASNsForCountry records countryCode
  = records ≫= extractStep countryCode [].
Proof.
  unfold extractASNsForCountry.
  assert (H : forall asns, fold_left (extractStep countryCode) records asns
                           = asns ++ (records ≫= extractStep countryCode [])).
  { induction records as [|r rs IH]; intros asns; cbn [fold_left].
    - rewrite app_nil_r. reflexivity.
    - rewrite IH, extractStep_app, <- app_assoc. reflexivity. }
  apply (H []).
Qed.

Lemma sortInts_unique (l sorted : list Z) :
  sorted ≡ₚ l -> StronglySorted Z.le sorted -> sortInts l = sorted.
Proof.
  intros Hperm Hsorted. apply (StronglySorted_unique Z.le).
  - apply sortInts_sorted.
  - assumption.
  - rewrite sortInts_Permutation. symmetry. assumption.
Qed.

(** X19: the answer of [FetchASNsForCountry] does not depend on the order
    of the lines of the registry file: two servers that both answer with
    status 200 and bodies read without error, whose lines are the same up
    to their order, give the same list. *)
Theorem FetchASNsForCountry_line_order (httpGet httpGet' : list ascii -> error + Response)
  (countryCode : list ascii) (rir : RIR) (resp resp' : Response) :
  CountryToRIR !! countryCode = Some rir ->
  httpGet (URL rir) = inr resp -> httpGet' (URL rir) = inr resp' ->
  StatusCode resp = 200 -> StatusCode resp' = 200 ->
  scanErr (Body resp) = None -> scanErr (Body resp') = None ->
  scanned (Body resp) ≡ₚ scanned (Body resp') ->
  FetchASNsForCountry httpGet countryCode = FetchASNsForCountry httpGet' countryCode.
Proof.
  intros Hrir Hget Hget' Hst Hst' Herr Herr' Hperm.
  unfold FetchASNsForCountry, fetchDelegatedRecords, parseDelegatedFile.
  rewrite Hrir, Hget, Hget', Hst, Hst', Herr, Herr'. cbn [Z.eqb Pos.eqb negb].
  cbv zeta. f_equal. rewrite !parse_fold. cbn [app].
  apply sortInts_unique; [|apply sortInts_sorted].
  rewrite sortInts_Permutation, !extractASNs_bind. rewrite Hperm. reflexivity.
Qed.

Lemma FetchASNsForCountry_line_order_witness :
  FetchASNsForCountry
    (fun _ => inr (mkResponse 200 (mkReader (textOf
       [str "ripencc|IR|asn|200|2|20110101|allocated";
        str "ripencc|IR|asn|100|1|20110101|assigned"]) None false))) (str "IR")
  = FetchASNsForCountry
    (fun _ => inr (mkResponse 200 (mkReader (textOf
       [str "ripencc|IR|asn|100|1|20110101|assigned";
        str "ripencc|IR|asn|200|2|20110101|allocated"]) None false))) (str "IR").
Proof.
  apply (FetchASNsForCountry_line_order _ _ (str "IR") RIPE_NCC
           (mkResponse 200 (mkReader (textOf
              [str "ripencc|IR|asn|200|2|20110101|allocated";
               str "ripencc|IR|asn|100|1|20110101|assigned"]) None false))
           (mkResponse 200 (mkReader (textOf
              [str "ripencc|IR|asn|100|1|20110101|assigned";
               str "ripencc|IR|asn|200|2|20110101|allocated"]) None false)));
    try reflexivity.
  apply Permutation_swap.
Defined.

(** ** The ASN resolver: how often an ASN occurs *)

#[global] Instance selectedFor_dec (countryCode : list ascii) (record : DelegatedRecord) :
  Decision (selectedFor countryCode record).
Proof. unfold selectedFor. apply _. Defined.

#[global] Instance inRangeOf_dec (countryCode : list ascii) (a : Z) (record : DelegatedRecord) :
  Decision (inRangeOf countryCode a record).
Proof.
  unfold inRangeOf.
  destruct (decide (selectedFor countryCode record)) as [Hs|Hs];
    [|right; intros [H _]; contradiction].
  destruct (Atoi (Start record)) as [s|];
    [|right; intros (_ & ? & ? & [=] & _)].
  destruct (Atoi (Value record)) as [c|];
    [|right; intros (_ & ? & ? & _ & [=] & _)].
  destruct (decide (s <= a < s + c)) as [Hr|Hr].
  - left. split; [assumption|]. exists s, c. auto.
  - right. intros (_ & ? & ? & [= <-] & [= <-] & H). contradiction.
Defined.

Lemma wrap64_distinct (x d : Z) : 0 < d <= 2 ^ 63 -> wrap64 x <> wrap64 (x + d).
Proof.
  unfold wrap64. change (2 ^ 63) with 9223372036854775808.
  change (2 ^ 64) with 18446744073709551616.
  intros Hd. Z.div_mod_to_equations. lia.
Qed.

Lemma expandRange_NoDup (n : nat) (i startASN : Z) :
  Z.of_nat n <= 2 ^ 63 -> NoDup (expandRange n i startASN []).
Proof.
  revert i. induction n as [|n IH]; intros i Hn; cbn [expandRange]; [constructor|].
  cbv zeta. rewrite expandRange_app. apply NoDup_app. split; [|split].
  - destruct (isValidPublicASN _); cbn [app]; [|constructor].
    apply NoDup_singleton.
  - intros a Ha Hin. apply expandRange_elem in Hin as [Hin|(k & Hk & Heq & _)];
      [inversion Hin|].
    destruct (isValidPublicASN _); cbn [app] in Ha; [|inversion Ha].
    apply list_elem_of_singleton in Ha. subst a.
    apply (wrap64_distinct (startASN + i) (1 + Z.of_nat k)); [lia|].
    rewrite Heq. f_equal. lia.
  - apply IH. lia.
Qed.

Lemma extractStep_NoDup (countryCode : list ascii) (record : DelegatedRecord) :
  NoDup (extractStep countryCode [] record).
Proof.
  unfold extractStep.
  destruct (_ || _); [constructor|].
  destruct (_ || _); [constructor|].
  destruct (Atoi (Start record)); [|constructor].
  destruct (Atoi (Value record)) as [count|] eqn:Hc; [|constructor].
  apply expandRange_NoDup. apply Atoi_range in Hc.
  change (2 ^ 63) with 9223372036854775808 in *. lia.
Qed.

Lemma extractStep_inRange (countryCode : list ascii) (record : DelegatedRecord) (a : Z) :
  a ∈ extractStep countryCode [] record <->
  isValidPublicASN a = true /\ inRangeOf countryCode a record.
Proof.
  rewrite extractStep_elem. unfold inRangeOf. split.
  - intros [H|(s & c & Hsel & Hs & Hc & Hr & Hv)]; [inversion H|].
    split; [assumption|]. split; [assumption|]. exists s, c. auto.
  - intros (Hv & Hsel & s & c & Hs & Hc & Hr). right. exists s, c. auto.
Qed.

Lemma count_extractStep (countryCode : list ascii) (record : DelegatedRecord) (a : Z) :
  isValidPublicASN a = true ->
  count_occ Z.eq_dec (extractStep countryCode [] record) a
  = if decide (inRangeOf countryCode a record) then 1%nat else 0%nat.
Proof.
  intros Hv. destruct (decide (inRangeOf countryCode a record)) as [Hin|Hout].
  - apply NoDup_count_occ'; [apply NoDup_ListNoDup, extractStep_NoDup|].
    apply list_elem_of_In, extractStep_inRange. auto.
  - apply count_occ_not_In. intros Hin. apply Hout.
    apply list_elem_of_In, extractStep_inRange in Hin. apply Hin.
Qed.

Lemma count_extractASNs (records : list DelegatedRecord) (countryCode : list ascii) (a : Z) :
  isValidPublicASN a = true ->
  count_occ Z.eq_dec (extractASNsForCountry records countryCode) a
  = length (filter (inRangeOf countryCode a) records).
Proof.
  intros Hv. rewrite extractASNs_bind.
  induction records as [|r rs IH]; [reflexivity|].
  cbn [mbind list_bind]. rewrite count_occ_app, count_extractStep by assumption.
  rewrite filter_cons. destruct (decide (inRangeOf countryCode a r)); cbn [length]; lia.
Qed.

(** C7, as amended: for every country code present in the registry table,
    once the registry's file is downloaded and read, [FetchASNsForCountry]
    returns an ascending-sorted list of valid public ASNs: each record of
    type asn with exactly matching country code and status neither reserved
    nor available contributes every integer in [start, start+count) that
    passes the public-ASN validity filter. The list holds an ASN once for
    each such record whose range contains it, so it is free of duplicates
    exactly when no valid public ASN lies in the ranges of two of them. *)
Theorem FetchASNsForCountry_spec (httpGet : list ascii -> error + Response)
  (countryCode : list ascii) (rir : RIR) (resp : Response)
  (records : list DelegatedRecord) :
  CountryToRIR !! countryCode = Some rir ->
  httpGet (URL rir) = inr resp -> StatusCode resp = 200 ->
  parseDelegatedFile (Body resp) = inr records ->
  exists asns,
    FetchASNsForCountry httpGet countryCode = inr asns
    /\ StronglySorted Z.le asns
    /\ (forall a, a ∈ asns <->
          isValidPublicASN a = true
          /\ exists record, record ∈ records /\ inRangeOf countryCode a record)
    /\ (forall a, isValidPublicASN a = true ->
          count_occ Z.eq_dec asns a = length (filter (inRangeOf countryCode a) records))
    /\ (NoDup asns <->
        forall a, isValidPublicASN a = true ->
          (length (filter (inRangeOf countryCode a) records) <= 1)%nat).
Proof.
  intros Hrir Hget Hst Hparse.
  exists (sortInts (extractASNsForCountry records countryCode)).
  assert (Hmem : forall a, a ∈ sortInts (extractASNsForCountry records countryCode) <->
                   isValidPublicASN a = true
                   /\ exists record, record ∈ records /\ inRangeOf countryCode a record).
  { intros a. rewrite sortInts_Permutation, extractASNs_elem. unfold inRangeOf. split.
    - intros (r & s & c & Hr & Hsel & Hs & Hc & Hrange & Hv).
      split; [assumption|]. exists r. split; [assumption|]. split; [assumption|].
      exists s, c. repeat split; try assumption; lia.
    - intros (Hv & r & Hr & Hsel & s & c & Hs & Hc & Hrange). exists r, s, c.
      repeat split; try assumption; try apply Hsel; lia. }
  assert (Hcount : forall a, isValidPublicASN a = true ->
                     count_occ Z.eq_dec (sortInts (extractASNsForCountry records countryCode)) a
                     = length (filter (inRangeOf countryCode a) records)).
  { intros a Hv. rewrite <- count_extractASNs by assumption.
    apply Permutation_count_occ. apply sortInts_Permutation. }
  split; [|split; [|split; [|split]]].
  - unfold FetchASNsForCountry, fetchDelegatedRecords.
    rewrite Hrir, Hget, Hst, Hparse. reflexivity.
  - apply sortInts_sorted.
  - exact Hmem.
  - exact Hcount.
  - rewrite NoDup_ListNoDup, (NoDup_count_occ Z.eq_dec). split.
    + intros H a Hv. rewrite <- Hcount by assumption. apply H.
    + intros H a. destruct (isValidPublicASN a) eqn:Hv.
      * rewrite Hcount by assumption. apply H. assumption.
      * assert (count_occ Z.eq_dec
                  (sortInts (extractASNsForCountry records countryCode)) a = 0%nat) as ->;
          [|lia].
        apply count_occ_not_In. intros Hin.
        apply list_elem_of_In, Hmem in Hin as [Hv' _]. congruence.
Qed.

Lemma FetchASNsForCountry_spec_witness :
  exists asns,
    FetchASNsForCountry (fun _ => inr (mkResponse 200 disjointFile)) (str "IR") = inr asns
    /\ StronglySorted Z.le asns
    /\ (forall a, a ∈ asns <->
          isValidPublicASN a = true
          /\ exists record,
               record ∈ [mkRecord (str "ripencc") (str "IR") (str "asn") (str "200")
                                  (str "2") (str "20110101") (str "allocated");
                         mkRecord (str "ripencc") (str "IR") (str "asn") (str "100")
                                  (str "1") (str "20110101") (str "assigned")]
               /\ inRangeOf (str "IR") a record)
    /\ (forall a, isValidPublicASN a = true ->
          count_occ Z.eq_dec asns a
          = length (filter (inRangeOf (str "IR") a)
                      [mkRecord (str "ripencc") (str "IR") (str "asn") (str "200")
                                (str "2") (str "20110101") (str "allocated");
                       mkRecord (str "ripencc") (str "IR") (str "asn") (str "100")
                                (str "1") (str "20110101") (str "assigned")]))
    /\ (NoDup asns <->
        forall a, isValidPublicASN a = true ->
          (length (filter (inRangeOf (str "IR") a)
                     [mkRecord (str "ripencc") (str "IR") (str "asn") (str "200")
                               (str "2") (str "20110101") (str "allocated");
                      mkRecord (str "ripencc") (str "IR") (str "asn") (str "100")
                               (str "1") (str "20110101") (str "assigned")]) <= 1)%nat).
Proof.
  apply (FetchASNsForCountry_spec _ (str "IR") RIPE_NCC (mkResponse 200 disjointFile)).
  - reflexivity.
  - reflexivity.
  - reflexivity.
  - vm_compute. reflexivity.
Defined.
